(** * extract_docx.py: the context-bundle builder, modelled and verified

    The program scans a directory, extracts text from every supported file
    (docx, pdf, pptx, plain text), and concatenates the results with the
    site brief into one markdown document.

    Python values are modelled as follows.
    - [str] is a list of Unicode code points ([N]); an ASCII literal of the
      source is written [lit "..."].
    - [bytes] is a list of [Byte.byte].
    - A call that may raise returns a [result]: [Ok v] or [Raise e].
    - The file system, the installed third-party parsers and the clock are
      explicit inputs. *)

From Stdlib Require Import Strings.String Strings.Ascii Strings.Byte.
From Stdlib Require Import List NArith ZArith PeanoNat Wf_nat Bool Lia Zify Permutation.
Import ListNotations.

Local Open Scope N_scope.
Local Open Scope list_scope.

(** * Part I: the model *)

(** ** Python [str] *)

Module PyStr.

Definition char := N.
Definition str := list char.

(** An ASCII literal of the source, as a [str]. *)
Definition lit (s : string) : str :=
  map N_of_ascii (list_ascii_of_string s).

Definition in_range (lo hi c : char) : bool := (lo <=? c) && (c <=? hi).

(** [str.isspace] on one code point (CPython's [_PyUnicode_IsWhitespace]). *)
Definition isspace (c : char) : bool :=
  in_range 0x09 0x0D c || in_range 0x1C 0x20 c
  || (c =? 0x85) || (c =? 0xA0) || (c =? 0x1680)
  || in_range 0x2000 0x200A c
  || (c =? 0x2028) || (c =? 0x2029) || (c =? 0x202F)
  || (c =? 0x205F) || (c =? 0x3000).

Definition is_empty (s : str) : bool :=
  match s with [] => true | _ :: _ => false end.

(** [bool(s)] for a string: true when non-empty. *)
Definition truthy (s : str) : bool := negb (is_empty s).

Fixpoint lstrip (s : str) : str :=
  match s with
  | [] => []
  | c :: r => if isspace c then lstrip r else s
  end.

Fixpoint rstrip (s : str) : str :=
  match s with
  | [] => []
  | c :: r =>
      let r' := rstrip r in
      if is_empty r' && isspace c then [] else c :: r'
  end.

(** [str.strip()] with no argument: the slice between the first and the last
    code point that is not whitespace. *)
Definition strip (s : str) : str := rstrip (lstrip s).

(** [sep.join(parts)]. *)
Fixpoint join (sep : str) (parts : list str) : str :=
  match parts with
  | [] => []
  | [x] => x
  | x :: rest => x ++ sep ++ join sep rest
  end.

(** [s.replace(old, new)] for a pattern [old] of one code point. *)
Definition replace (old : char) (new : str) (s : str) : str :=
  flat_map (fun c => if c =? old then new else [c]) s.

Fixpoint str_eqb (a b : str) : bool :=
  match a, b with
  | [], [] => true
  | x :: a', y :: b' => (x =? y) && str_eqb a' b'
  | _, _ => false
  end.

(** [a < b] on strings: lexicographic on code points. *)
Fixpoint str_ltb (a b : str) : bool :=
  match a, b with
  | _, [] => false
  | [], _ :: _ => true
  | x :: a', y :: b' => (x <? y) || ((x =? y) && str_ltb a' b')
  end.

(** [s.split(sep)] for a separator of one code point. *)
Fixpoint split (sep : char) (s : str) : list str :=
  match s with
  | [] => [[]]
  | c :: r =>
      if c =? sep then [] :: split sep r
      else match split sep r with
           | [] => [[c]]
           | hd :: tl => (c :: hd) :: tl
           end
  end.

Definition is_ascii (c : char) : bool := c <? 0x80.

Definition ascii_lower (c : char) : char :=
  if in_range 0x41 0x5A c then c + 0x20 else c.

(** [s.lower()].  CPython lowers a string of ASCII code points with the ASCII
    table; any other string goes through the Unicode case tables, which are
    data of the interpreter: [unicode_lower] stands for them. *)
Definition lower (unicode_lower : str -> str) (s : str) : str :=
  if forallb is_ascii s then map ascii_lower s else unicode_lower s.

Definition NL : char := 0x0A.

Definition no_leading_space (s : str) : bool :=
  match s with [] => true | c :: _ => negb (isspace c) end.

Definition no_trailing_space (s : str) : bool :=
  no_leading_space (rev s).

Fixpoint startswith (prefix s : str) : bool :=
  match prefix, s with
  | [], _ => true
  | x :: prefix', y :: s' => (x =? y) && startswith prefix' s'
  | _ :: _, [] => false
  end.

(** [needle in s]. *)
Fixpoint contains (needle s : str) : bool :=
  startswith needle s
  || match s with
     | [] => false
     | _ :: s' => contains needle s'
     end.

End PyStr.

Import PyStr.

(** ** Exceptions and results *)

(** The exceptions the program can meet.  [ThirdPartyError] is whatever a
    parsing library raises on a file it cannot read (a subclass of
    [Exception], as the libraries' own error classes are); [RuntimeError]
    carries its [__cause__], set by [raise ... from exc]. *)
#[warnings="-register-all"]
Inductive exn : Type :=
| ModuleNotFoundError (module : string)
| RuntimeError (msg : str) (cause : option exn)
| UnicodeDecodeError (start stop : nat) (reason : string)
| UnicodeEncodeError (start stop : nat) (reason : string)
| FileNotFoundError
| FileExistsError
| IsADirectoryError
| NotADirectoryError
| ThirdPartyError (detail : string)
| SystemExit (msg : str).

(** [isinstance(e, Exception)]: [SystemExit] derives from [BaseException]
    only. *)
Definition is_Exception (e : exn) : bool :=
  match e with
  | SystemExit _ => false
  | _ => true
  end.

(** The [__cause__] attribute. *)
Definition exn_cause (e : exn) : option exn :=
  match e with
  | RuntimeError _ c => c
  | _ => None
  end.

Inductive result (A : Type) : Type :=
| Ok (a : A)
| Raise (e : exn).
Arguments Ok {A} a.
Arguments Raise {A} e.

Definition bind {A B} (m : result A) (k : A -> result B) : result B :=
  match m with
  | Ok a => k a
  | Raise e => Raise e
  end.

Notation "x <- m ;; k" := (bind m (fun x => k))
  (at level 61, m at next level, right associativity).
Notation "' p <- m ;; k" := (bind m (fun p => k))
  (at level 61, p pattern, m at next level, right associativity).

Definition fmap {A B} (f : A -> B) (m : result A) : result B :=
  x <- m ;; Ok (f x).

(** ** The UTF-8 codec *)

Module Utf8.

Definition bytes := list byte.

Inductive errors_mode := strict | ignore.

Definition IS_CONTINUATION_BYTE (ch : N) : bool := (0x80 <=? ch) && (ch <? 0xC0).

(** What the error handler does with the bytes [pos..stop): [strict] raises,
    [ignore] drops them and resumes after them. *)
Definition decode_error (errors : errors_mode) (pos stop : nat)
    (reason : string) (resume : result str) : result str :=
  match errors with
  | strict => Raise (UnicodeDecodeError pos stop reason)
  | ignore => resume
  end.

Definition emit (c : char) (rest : result str) : result str :=
  fmap (cons c) rest.

(** [bytes.decode("utf-8", errors)], after CPython's [utf8_decode]: one to
    four bytes per code point; overlong forms, surrogates and values above
    U+10FFFF are rejected at the second byte; an error covers the bytes read
    so far of the sequence, or the rest of the input when it ends early. *)
Fixpoint utf8_decode (errors : errors_mode) (pos : nat) (s : bytes)
    {struct s} : result str :=
  match s with
  | [] => Ok []
  | b0 :: s1 =>
    let ch := Byte.to_N b0 in
    if ch <? 0x80 then emit ch (utf8_decode errors (pos + 1) s1)
    else if ch <? 0xC2 then
      decode_error errors pos (pos + 1) "invalid start byte"
        (utf8_decode errors (pos + 1) s1)
    else if ch <? 0xE0 then
      match s1 with
      | [] => decode_error errors pos (pos + 1) "unexpected end of data" (Ok [])
      | b1 :: s2 =>
        let ch2 := Byte.to_N b1 in
        if negb (IS_CONTINUATION_BYTE ch2) then
          decode_error errors pos (pos + 1) "invalid continuation byte"
            (utf8_decode errors (pos + 1) s1)
        else
          emit (N.shiftl ch 6 + ch2 - (N.shiftl 0xC0 6 + 0x80))
            (utf8_decode errors (pos + 2) s2)
      end
    else if ch <? 0xF0 then
      match s1 with
      | [] => decode_error errors pos (pos + 1) "unexpected end of data" (Ok [])
      | b1 :: s2 =>
        let ch2 := Byte.to_N b1 in
        if negb (IS_CONTINUATION_BYTE ch2)
           || (if ch2 <? 0xA0 then ch =? 0xE0 else ch =? 0xED) then
          decode_error errors pos (pos + 1) "invalid continuation byte"
            (utf8_decode errors (pos + 1) s1)
        else
          match s2 with
          | [] =>
            decode_error errors pos (pos + 2) "unexpected end of data" (Ok [])
          | b2 :: s3 =>
            let ch3 := Byte.to_N b2 in
            if negb (IS_CONTINUATION_BYTE ch3) then
              decode_error errors pos (pos + 2) "invalid continuation byte"
                (utf8_decode errors (pos + 2) s2)
            else
              emit (N.shiftl ch 12 + N.shiftl ch2 6 + ch3
                    - (N.shiftl 0xE0 12 + N.shiftl 0x80 6 + 0x80))
                (utf8_decode errors (pos + 3) s3)
          end
      end
    else if ch <? 0xF5 then
      match s1 with
      | [] => decode_error errors pos (pos + 1) "unexpected end of data" (Ok [])
      | b1 :: s2 =>
        let ch2 := Byte.to_N b1 in
        if negb (IS_CONTINUATION_BYTE ch2)
           || (if ch2 <? 0x90 then ch =? 0xF0 else ch =? 0xF4) then
          decode_error errors pos (pos + 1) "invalid continuation byte"
            (utf8_decode errors (pos + 1) s1)
        else
          match s2 with
          | [] =>
            decode_error errors pos (pos + 2) "unexpected end of data" (Ok [])
          | b2 :: s3 =>
            let ch3 := Byte.to_N b2 in
            if negb (IS_CONTINUATION_BYTE ch3) then
              decode_error errors pos (pos + 2) "invalid continuation byte"
                (utf8_decode errors (pos + 2) s2)
            else
              match s3 with
              | [] =>
                decode_error errors pos (pos + 3) "unexpected end of data"
                  (Ok [])
              | b3 :: s4 =>
                let ch4 := Byte.to_N b3 in
                if negb (IS_CONTINUATION_BYTE ch4) then
                  decode_error errors pos (pos + 3) "invalid continuation byte"
                    (utf8_decode errors (pos + 3) s3)
                else
                  emit (N.shiftl ch 18 + N.shiftl ch2 12 + N.shiftl ch3 6 + ch4
                        - (N.shiftl 0xF0 18 + N.shiftl 0x80 12
                           + N.shiftl 0x80 6 + 0x80))
                    (utf8_decode errors (pos + 4) s4)
              end
          end
      end
    else
      decode_error errors pos (pos + 1) "invalid start byte"
        (utf8_decode errors (pos + 1) s1)
  end.

(** One turn of the decoder, seen from outside: at the head of [s] it finds
    the end of the input, a code point made of [n] bytes, or an error that
    covers [n] bytes; [rest] is where decoding goes on. *)
Inductive step : Type :=
| Done
| Char (c : char) (n : nat) (rest : bytes)
| Bad (n : nat) (reason : string) (rest : bytes).

Definition decode_step (s : bytes) : step :=
  match s with
  | [] => Done
  | b0 :: s1 =>
    let ch := Byte.to_N b0 in
    if ch <? 0x80 then Char ch 1 s1
    else if ch <? 0xC2 then Bad 1 "invalid start byte" s1
    else if ch <? 0xE0 then
      match s1 with
      | [] => Bad 1 "unexpected end of data" []
      | b1 :: s2 =>
        let ch2 := Byte.to_N b1 in
        if negb (IS_CONTINUATION_BYTE ch2) then
          Bad 1 "invalid continuation byte" s1
        else Char (N.shiftl ch 6 + ch2 - (N.shiftl 0xC0 6 + 0x80)) 2 s2
      end
    else if ch <? 0xF0 then
      match s1 with
      | [] => Bad 1 "unexpected end of data" []
      | b1 :: s2 =>
        let ch2 := Byte.to_N b1 in
        if negb (IS_CONTINUATION_BYTE ch2)
           || (if ch2 <? 0xA0 then ch =? 0xE0 else ch =? 0xED) then
          Bad 1 "invalid continuation byte" s1
        else
          match s2 with
          | [] => Bad 2 "unexpected end of data" []
          | b2 :: s3 =>
            let ch3 := Byte.to_N b2 in
            if negb (IS_CONTINUATION_BYTE ch3) then
              Bad 2 "invalid continuation byte" s2
            else
              Char (N.shiftl ch 12 + N.shiftl ch2 6 + ch3
                    - (N.shiftl 0xE0 12 + N.shiftl 0x80 6 + 0x80)) 3 s3
          end
      end
    else if ch <? 0xF5 then
      match s1 with
      | [] => Bad 1 "unexpected end of data" []
      | b1 :: s2 =>
        let ch2 := Byte.to_N b1 in
        if negb (IS_CONTINUATION_BYTE ch2)
           || (if ch2 <? 0x90 then ch =? 0xF0 else ch =? 0xF4) then
          Bad 1 "invalid continuation byte" s1
        else
          match s2 with
          | [] => Bad 2 "unexpected end of data" []
          | b2 :: s3 =>
            let ch3 := Byte.to_N b2 in
            if negb (IS_CONTINUATION_BYTE ch3) then
              Bad 2 "invalid continuation byte" s2
            else
              match s3 with
              | [] => Bad 3 "unexpected end of data" []
              | b3 :: s4 =>
                let ch4 := Byte.to_N b3 in
                if negb (IS_CONTINUATION_BYTE ch4) then
                  Bad 3 "invalid continuation byte" s3
                else
                  Char (N.shiftl ch 18 + N.shiftl ch2 12 + N.shiftl ch3 6 + ch4
                        - (N.shiftl 0xF0 18 + N.shiftl 0x80 12
                           + N.shiftl 0x80 6 + 0x80)) 4 s4
              end
          end
      end
    else Bad 1 "invalid start byte" s1
  end.

(** The reference the decoder is checked against: the UTF-8 encoding of one
    code point (RFC 3629).  Surrogates and values above U+10FFFF have none. *)
Definition byte_of (n : N) : byte :=
  match Byte.of_N n with Some b => b | None => x00 end.

Definition encode_char (c : char) : option bytes :=
  if c <? 0x80 then Some [byte_of c]
  else if c <? 0x800 then
    Some [byte_of (0xC0 + c / 64); byte_of (0x80 + c mod 64)]
  else if c <? 0x10000 then
    if in_range 0xD800 0xDFFF c then None
    else Some [byte_of (0xE0 + c / 4096); byte_of (0x80 + (c / 64) mod 64);
               byte_of (0x80 + c mod 64)]
  else if c <? 0x110000 then
    Some [byte_of (0xF0 + c / 262144); byte_of (0x80 + (c / 4096) mod 64);
          byte_of (0x80 + (c / 64) mod 64); byte_of (0x80 + c mod 64)]
  else None.

Fixpoint utf8_encode (s : str) : option bytes :=
  match s with
  | [] => Some []
  | c :: r =>
    match encode_char c, utf8_encode r with
    | Some bs, Some rest => Some (bs ++ rest)
    | _, _ => None
    end
  end.

(** Text-mode reading with [newline=None]: [\r\n] and a lone [\r] become
    [\n]. *)
Fixpoint universal_newlines (s : str) : str :=
  match s with
  | [] => []
  | c :: r =>
    if c =? 0x0D then
      match r with
      | c' :: r' => if c' =? 0x0A then NL :: universal_newlines r'
                    else NL :: universal_newlines r
      | [] => [NL]
      end
    else c :: universal_newlines r
  end.

End Utf8.

Import Utf8.

(** ** Paths and the file system *)

(** A [pathlib.Path], as its parts. *)
Definition Path := list str.

Definition name (p : Path) : str := last p [].

(** [d / child]. *)
Definition joinpath (d : Path) (child : str) : Path := d ++ [child].

(** The anchor of an absolute path: its first part, which starts with a
    slash.  No other part holds a slash. *)
Definition is_anchor (part : str) : bool :=
  match part with
  | c :: _ => c =? 0x2F
  | [] => false
  end.

(** [str(path)]: the anchor, then the other parts joined by slashes; [.]
    for the path without parts. *)
Definition path_str (p : Path) : str :=
  match p with
  | [] => lit "."
  | a :: tail => if is_anchor a then a ++ join (lit "/") tail
                 else join (lit "/") p
  end.

(** [path.parent]: the path without its last part; the root and [.] are
    their own parents. *)
Definition parent (p : Path) : Path :=
  match p with
  | [a] => if is_anchor a then p else []
  | _ => removelast p
  end.

(** [p == q] on paths. *)
Fixpoint path_eqb (p q : Path) : bool :=
  match p, q with
  | [], [] => true
  | x :: p', y :: q' => str_eqb x y && path_eqb p' q'
  | _, _ => false
  end.

(** [s.rfind(c)]: the index of the last [c] in [s], [None] for -1. *)
Fixpoint rfind (c : char) (s : str) : option nat :=
  match s with
  | [] => None
  | x :: r =>
    match rfind c r with
    | Some i => Some (S i)
    | None => if x =? c then Some O else None
    end
  end.

(** [path.suffix] (pathlib of Python 3.11 to 3.13): the name from its last
    dot on, when that dot is neither the first nor the last character. *)
Definition suffix (p : Path) : str :=
  let nm := name p in
  match rfind 0x2E nm with
  | Some i =>
    if (0 <? i)%nat && (i <? length nm - 1)%nat then skipn i nm else []
  | None => []
  end.

(** [p < q] on paths: lexicographic on the parts. *)
Fixpoint path_ltb (p q : Path) : bool :=
  match p, q with
  | _, [] => false
  | [], _ :: _ => true
  | x :: p', y :: q' => str_ltb x y || (str_eqb x y && path_ltb p' q')
  end.

Fixpoint insert_sorted (p : Path) (l : list Path) : list Path :=
  match l with
  | [] => [p]
  | q :: l' => if path_ltb q p then q :: insert_sorted p l' else p :: l
  end.

(** [sorted(paths)]: a stable sort by [<]. *)
Definition sorted (l : list Path) : list Path :=
  fold_right insert_sorted [] l.

(** What a path leads to: a directory with the names of its entries, in the
    order the operating system lists them, or a file with its bytes. *)
Inductive node : Type :=
| Dir (entries : list str)
| File (data : bytes).

(** The file system as the process sees it.  The path without parts is
    [Path(".")], the working directory: where the process has one, the
    file system has a directory there. *)
Definition filesystem := Path -> option node.

(** ** The third-party parsers

    What [docx.Document], [pypdf.PdfReader] and [pptx.Presentation] give
    the program: the attributes it reads, nothing more.  A paragraph, a cell
    and a shape are represented by their [.text]. *)

Inductive parsed (A : Type) : Type :=
| Parsed (a : A)
| Failed (detail : string).
Arguments Parsed {A} a.
Arguments Failed {A} detail.

(** A failure inside a parsing library reaches the program as an exception
    of that library. *)
Definition lift {A} (r : parsed A) : result A :=
  match r with
  | Parsed a => Ok a
  | Failed d => Raise (ThirdPartyError d)
  end.

Module Docx.
Record Row := { cells : list str }.
Record Table := { rows : list Row }.
Record Document := { paragraphs : list str; tables : list Table }.

(** The body of a document, in document order: paragraphs and tables,
    interleaved as the author put them. *)
Inductive Block : Type :=
| Paragraph (text : str)
| TableBlock (table : Table).

Definition is_paragraph (b : Block) : bool :=
  match b with Paragraph _ => true | TableBlock _ => false end.

Definition is_table (b : Block) : bool := negb (is_paragraph b).

(** [document.paragraphs] holds the paragraphs of the body and
    [document.tables] its tables, each list in document order: what
    python-docx makes of a body. *)
Definition of_body (body : list Block) : Document :=
  {| paragraphs := flat_map (fun b => match b with
                                      | Paragraph text => [text]
                                      | TableBlock _ => []
                                      end) body;
     tables := flat_map (fun b => match b with
                                  | Paragraph _ => []
                                  | TableBlock table => [table]
                                  end) body |}.
End Docx.

Module Pdf.
(** [extract_text()] returns a string or [None], or fails. *)
Record Page := { extract_text : parsed (option str) }.
Record PdfReader := { pages : list Page }.
End Pdf.

Module Pptx.
(** A shape without a [text] attribute, or with one ([None] or a string). *)
Inductive Shape := NoTextAttr | HasText (text : option str).
Record Slide := { shapes : list Shape }.
Record Presentation := { slides : list Slide }.
End Pptx.

(** The importable parsing modules: [None] when [import] raises
    [ModuleNotFoundError]. *)
Record site_packages := {
  docx_Document : option (bytes -> parsed Docx.Document);
  pypdf_PdfReader : option (bytes -> parsed Pdf.PdfReader);
  PyPDF2_PdfReader : option (bytes -> parsed Pdf.PdfReader);
  pptx_Presentation : option (bytes -> parsed Pptx.Presentation)
}.

(** ** Small helpers for Python idioms *)

(** [x or ""]. *)
Definition or_empty (x : option str) : str :=
  match x with
  | Some s => if truthy s then s else []
  | None => []
  end.

Fixpoint uint_digits (u : Decimal.uint) : str :=
  match u with
  | Decimal.Nil => []
  | Decimal.D0 u => 0x30 :: uint_digits u
  | Decimal.D1 u => 0x31 :: uint_digits u
  | Decimal.D2 u => 0x32 :: uint_digits u
  | Decimal.D3 u => 0x33 :: uint_digits u
  | Decimal.D4 u => 0x34 :: uint_digits u
  | Decimal.D5 u => 0x35 :: uint_digits u
  | Decimal.D6 u => 0x36 :: uint_digits u
  | Decimal.D7 u => 0x37 :: uint_digits u
  | Decimal.D8 u => 0x38 :: uint_digits u
  | Decimal.D9 u => 0x39 :: uint_digits u
  end.

(** [str(n)] for a non-negative integer. *)
Definition str_of_nat (n : nat) : str := uint_digits (Nat.to_uint n).

(** [f"{n:0wd}"]: decimal digits, zero-padded to width [w]. *)
Definition zero_padded (w : nat) (n : N) : str :=
  let d := uint_digits (N.to_uint n) in
  repeat 0x30 (w - length d)%nat ++ d.

(** [enumerate(l, start=1)]. *)
Definition enumerate1 {A} (l : list A) : list (nat * A) :=
  combine (seq 1 (length l)) l.

(** [d.get(key)] on a dict literal. *)
Fixpoint dict_get {V} (d : list (str * V)) (key : str) : option V :=
  match d with
  | [] => None
  | (k, v) :: d' => if str_eqb k key then Some v else dict_get d' key
  end.

(** ** The clock *)

(** A UTC [datetime], to the second. *)
Record datetime := {
  year : N; month : N; day : N; hour : N; minute : N; second : N
}.

(** [dt.isoformat(timespec="seconds")] of a UTC-aware [datetime]. *)
Definition isoformat (dt : datetime) : str :=
  zero_padded 4 (year dt) ++ lit "-" ++ zero_padded 2 (month dt) ++ lit "-"
  ++ zero_padded 2 (day dt) ++ lit "T" ++ zero_padded 2 (hour dt) ++ lit ":"
  ++ zero_padded 2 (minute dt) ++ lit ":" ++ zero_padded 2 (second dt)
  ++ lit "+00:00".

(** ** The program *)

Section Program.

(** The interpreter's Unicode lower-casing of non-ASCII strings, the file
    system, and the installed parsing modules. *)
Variable unicode_lower : str -> str.
Variable fs : filesystem.
Variable site : site_packages.

Definition exists_ (p : Path) : bool :=
  match fs p with Some _ => true | None => false end.

Definition is_dir (p : Path) : bool :=
  match fs p with Some (Dir _) => true | _ => false end.

(** [source_dir.glob("*")]: the direct entries, in the system's order. *)
Definition glob_star (d : Path) : list Path :=
  match fs d with
  | Some (Dir entries) => map (joinpath d) entries
  | _ => []
  end.

Definition read_bytes (p : Path) : result bytes :=
  match fs p with
  | Some (File data) => Ok data
  | Some (Dir _) => Raise IsADirectoryError
  | None => Raise FileNotFoundError
  end.

(** [path.read_text(encoding="utf-8", errors=...)]. *)
Definition read_text (errors : errors_mode) (p : Path) : result str :=
  data <- read_bytes p ;;
  text <- utf8_decode errors 0 data ;;
  Ok (universal_newlines text).

(** A parsing library's constructor applied to a path: it opens the file and
    parses its bytes. *)
Definition construct {A} (cls : bytes -> parsed A) (p : Path) : result A :=
  data <- read_bytes p ;;
  lift (cls data).

Definition docx_required : str :=
  lit "python-docx is required to read .docx files. Install it via 'pip install python-docx'.".

Definition pdf_required : str :=
  lit "pypdf or PyPDF2 is required to read .pdf files. Install via 'pip install pypdf'.".

Definition pptx_required : str :=
  lit "python-pptx is required to read .pptx files. Install it via 'pip install python-pptx'.".

Definition read_docx (file_path : Path) : result str :=
  match docx_Document site with
  | None =>
    Raise (RuntimeError docx_required (Some (ModuleNotFoundError "docx")))
  | Some Document =>
    document <- construct Document file_path ;;
    let pieces : list str := [] in
    let pieces :=
      fold_left (fun pieces paragraph =>
                   let text := strip paragraph in
                   if truthy text then pieces ++ [text] else pieces)
                (Docx.paragraphs document) pieces in
    let pieces :=
      fold_left (fun pieces table =>
        fold_left (fun pieces row =>
                     let cells :=
                       map strip
                         (filter (fun cell => truthy (strip cell))
                                 (Docx.cells row)) in
                     match cells with
                     | [] => pieces
                     | _ :: _ => pieces ++ [join (lit " | ") cells]
                     end)
                  (Docx.rows table) pieces)
        (Docx.tables document) pieces in
    Ok (join [NL] pieces)
  end.

Definition read_pdf (file_path : Path) : result str :=
  reader_cls <-
    match pypdf_PdfReader site with
    | Some PdfReader => Ok PdfReader
    | None =>
      match PyPDF2_PdfReader site with
      | Some PdfReader => Ok PdfReader
      | None =>
        Raise (RuntimeError pdf_required (Some (ModuleNotFoundError "PyPDF2")))
      end
    end ;;
  reader <- construct reader_cls file_path ;;
  pages <-
    fold_left (fun acc page =>
                 pages <- acc ;;
                 extracted <- lift (Pdf.extract_text page) ;;
                 let text := or_empty extracted in
                 let text := strip text in
                 Ok (if truthy text then pages ++ [text] else pages))
              (Pdf.pages reader) (Ok []) ;;
  Ok (join [NL; NL] pages).

Definition read_pptx (file_path : Path) : result str :=
  match pptx_Presentation site with
  | None =>
    Raise (RuntimeError pptx_required (Some (ModuleNotFoundError "pptx")))
  | Some Presentation =>
    presentation <- construct Presentation file_path ;;
    let slides_output :=
      fold_left (fun slides_output '(index, slide) =>
        let fragments :=
          fold_left (fun fragments shape =>
                       match shape with
                       | Pptx.NoTextAttr => fragments
                       | Pptx.HasText t =>
                         let text := strip (or_empty t) in
                         if truthy text then fragments ++ [text] else fragments
                       end)
                    (Pptx.shapes slide) [] in
        match fragments with
        | [] => slides_output
        | _ :: _ =>
          slides_output
            ++ [lit "Slide " ++ str_of_nat index ++ lit ":" ++ [NL]
                ++ join [NL] fragments]
        end)
        (enumerate1 (Pptx.slides presentation)) [] in
    Ok (join [NL; NL] slides_output)
  end.

Definition read_plain_text (file_path : Path) : result str :=
  fmap strip (read_text ignore file_path).

Definition READERS : list (str * (Path -> result str)) :=
  [ (lit ".docx", read_docx);
    (lit ".pdf", read_pdf);
    (lit ".pptx", read_pptx);
    (lit ".txt", read_plain_text);
    (lit ".md", read_plain_text) ].

Definition sanitize_heading (text : str) : str :=
  replace 0x60 [0x2019] text.

Definition load_site_brief (path : Path) : result str :=
  if negb (exists_ path) then Ok []
  else fmap strip (read_text strict path).

Definition buckets : Type :=
  list (Path * str) * list Path * list (Path * exn).

(** One turn of the loop of [gather_sources]; [except Exception] lets any
    other exception through. *)
Definition gather_step (acc : result buckets) (file_path : Path)
    : result buckets :=
  '(gathered, unsupported, failures) <- acc ;;
  if is_dir file_path then Ok (gathered, unsupported, failures)
  else
    match dict_get READERS (lower unicode_lower (suffix file_path)) with
    | None => Ok (gathered, unsupported ++ [file_path], failures)
    | Some reader =>
      match fmap strip (reader file_path) with
      | Ok text => Ok (gathered ++ [(file_path, text)], unsupported, failures)
      | Raise exc =>
        if is_Exception exc
        then Ok (gathered, unsupported, failures ++ [(file_path, exc)])
        else Raise exc
      end
    end.

Definition gather_sources (source_dir : Path) : result buckets :=
  fold_left gather_step (sorted (glob_star source_dir)) (Ok ([], [], [])).

(** [now] is the reading of [datetime.now(UTC)] the call makes. *)
Definition build_bundle (now : datetime) (request_text : str)
    (sources : list (Path * str)) : str :=
  let lines : list str := [] in
  let timestamp := isoformat now in
  let lines := lines ++ [lit "# Website Request Bundle"] in
  let lines := lines ++ [lit "Generated: " ++ timestamp] in
  let lines := lines ++ [[]] in
  let lines :=
    if truthy request_text then
      lines ++ [lit "## Site Brief (`request/site-brief.yaml`)"]
            ++ [lit "```yaml"] ++ [request_text] ++ [lit "```"] ++ [[]]
    else
      lines ++ [lit "## Site Brief"]
            ++ [lit "_No site brief found. Fill out `request/site-brief.yaml` to capture your requirements._"]
            ++ [[]] in
  let lines := lines ++ [lit "## Source Material"] in
  let lines :=
    match sources with
    | [] =>
      lines ++ [lit "_No supported source files discovered in the `source/` directory._"]
    | _ :: _ =>
      fold_left (fun lines '(file_path, text) =>
        let heading := sanitize_heading (name file_path) in
        let lines := lines ++ [lit "### " ++ heading] in
        let lines :=
          if truthy text then
            lines ++ [lit "```text"] ++ [text] ++ [lit "```"]
          else lines ++ [lit "_No extractable text content found._"] in
        lines ++ [[]])
        sources lines
    end in
  strip (join [NL] lines) ++ [NL].

End Program.

(** ** Writing to the file system *)

(** The file system with [n] at [p]. *)
Definition fs_set (fs : filesystem) (p : Path) (n : node) : filesystem :=
  fun q => if path_eqb q p then Some n else fs q.

(** A new entry [n] at [p], listed last in the directory [entries] above
    it. *)
Definition fs_create (fs : filesystem) (p : Path) (entries : list str)
    (n : node) : filesystem :=
  fs_set (fs_set fs (parent p) (Dir (entries ++ [name p]))) p n.

Definition is_FileNotFoundError (e : exn) : bool :=
  match e with
  | FileNotFoundError => true
  | _ => false
  end.

(** [os.mkdir(p)]. *)
Definition os_mkdir (fs : filesystem) (p : Path) : result filesystem :=
  match fs p with
  | Some _ => Raise FileExistsError
  | None =>
    match fs (parent p) with
    | Some (Dir entries) => Ok (fs_create fs p entries (Dir []))
    | Some (File _) => Raise NotADirectoryError
    | None => Raise FileNotFoundError
    end
  end.

(** [p.mkdir(parents=False, exist_ok=True)]: an error other than a missing
    parent is passed over when [p] is a directory already. *)
Definition mkdir_exist_ok (fs : filesystem) (p : Path) : result filesystem :=
  match os_mkdir fs p with
  | Ok fs' => Ok fs'
  | Raise e =>
    if is_FileNotFoundError e then Raise e
    else if is_dir fs p then Ok fs else Raise e
  end.

(** [p.mkdir(parents=True, exist_ok=True)]: when the parent is missing, it
    is made first, by the same call one level up, and then [p].  [levels]
    bounds the climb; the number of parts of [p] is enough. *)
Fixpoint mkdir_parents (levels : nat) (fs : filesystem) (p : Path)
    : result filesystem :=
  match os_mkdir fs p with
  | Ok fs' => Ok fs'
  | Raise e =>
    if is_FileNotFoundError e then
      if path_eqb (parent p) p then Raise e
      else
        match levels with
        | O => Raise e
        | S k =>
          fs1 <- mkdir_parents k fs (parent p) ;;
          mkdir_exist_ok fs1 p
        end
    else if is_dir fs p then Ok fs else Raise e
  end.

Definition mkdir (fs : filesystem) (p : Path) : result filesystem :=
  mkdir_parents (length p) fs p.

(** The end of the run of code points without an encoding that starts
    [t]. *)
Fixpoint run_end (stop : nat) (t : str) : nat :=
  match t with
  | [] => stop
  | c :: t' =>
    match encode_char c with
    | None => run_end (stop + 1)%nat t'
    | Some _ => stop
    end
  end.

(** Where strict UTF-8 encoding of [s] stops, if it does: the bounds of the
    first run of code points without an encoding. *)
Fixpoint unencodable_run (pos : nat) (s : str) : option (nat * nat) :=
  match s with
  | [] => None
  | c :: r =>
    match encode_char c with
    | Some _ => unencodable_run (pos + 1)%nat r
    | None => Some (pos, run_end (pos + 1)%nat r)
    end
  end.

(** [p.write_text(text, encoding="utf-8")] on a POSIX system: the file is
    opened for writing, which creates or empties it, and the encoding of the
    text is written. *)
Definition write_text (fs : filesystem) (p : Path) (text : str)
    : result filesystem :=
  opened <-
    match fs p with
    | Some (Dir _) => Raise IsADirectoryError
    | Some (File _) => Ok (fs_set fs p (File []))
    | None =>
      match fs (parent p) with
      | Some (Dir entries) => Ok (fs_create fs p entries (File []))
      | Some (File _) => Raise NotADirectoryError
      | None => Raise FileNotFoundError
      end
    end ;;
  match utf8_encode text with
  | Some data => Ok (fs_set opened p (File data))
  | None =>
    match unencodable_run 0%nat text with
    | Some (start, stop) =>
      Raise (UnicodeEncodeError start stop "surrogates not allowed")
    | None => Ok (fs_set opened p (File []))
    end
  end.

(** ** The driver *)

Record arguments := {
  source_dir : Path;
  request_file : Path;
  output : Path
}.

(** What a completed run leaves: the file system after the bundle is
    written, and the lines printed. *)
Record run := {
  files : filesystem;
  stdout : list str
}.

(** A line of the summary after its bullet U+2022. *)
Definition bullet (text : str) : str :=
  lit "   " ++ [0x2022] ++ lit " " ++ text.

(** A [for] loop whose body prints: the lines printed so far are threaded
    through the turns, and an exception ends the loop. *)
Fixpoint for_each {A} (body : list str -> A -> result (list str))
    (items : list A) (printed : list str) : result (list str) :=
  match items with
  | [] => Ok printed
  | item :: rest =>
    printed' <- body printed item ;;
    for_each body rest printed'
  end.

Section Driver.

Variable unicode_lower : str -> str.
Variable fs : filesystem.
Variable site : site_packages.

(** What the summary takes from the interpreter and the operating system:
    [path.resolve()], which depends on the working directory and on
    symbolic links; [str(error)], the message of an exception; and the
    encoder of [sys.stdout], which depends on the locale: [stdout_error]
    gives the exception that writing a text raises, if it raises. *)
Variable resolve : Path -> Path.
Variable exn_str : exn -> str.
Variable stdout_error : str -> option exn.

(** [print(line)]. *)
Definition print (printed : list str) (line : str) : result (list str) :=
  match stdout_error line with
  | Some e => Raise e
  | None => Ok (printed ++ [line])
  end.

(** [now] is the clock reading [build_bundle] makes.  A run that raises
    is a [Raise]; what it had written by then is not kept. *)
Definition main (now : datetime) (args : arguments) : result run :=
  let source_dir := source_dir args in
  if negb (exists_ fs source_dir) then
    Raise (SystemExit (lit "Source directory not found: "
                       ++ path_str source_dir))
  else
    request_text <- load_site_brief fs (request_file args) ;;
    '(gathered, unsupported, failures) <-
      gather_sources unicode_lower fs site source_dir ;;
    let bundle := build_bundle now request_text gathered in
    let output_path := output args in
    fs1 <- mkdir fs (parent output_path) ;;
    fs2 <- write_text fs1 output_path bundle ;;
    printed <-
      print [] ([0x2705] ++ lit " Context bundle written to "
                ++ path_str (resolve output_path)) ;;
    printed <-
      match unsupported with
      | [] => Ok printed
      | _ :: _ =>
        printed <-
          print printed ([0x26A0; 0xFE0F]
                         ++ lit "  Unsupported files (skipped):") ;;
        for_each (fun printed path => print printed (bullet (name path)))
                 unsupported printed
      end ;;
    printed <-
      match failures with
      | [] => Ok printed
      | _ :: _ =>
        printed <-
          print printed ([0x274C]
                         ++ lit " Files that could not be processed:") ;;
        for_each (fun printed '(path, error) =>
                    print printed (bullet (name path ++ lit ": "
                                           ++ exn_str error)))
                 failures printed
      end ;;
    Ok {| files := fs2; stdout := printed |}.

End Driver.

(** ** Definitions used to state the properties *)

(** A result that is a value, or an exception [except Exception] catches. *)
Definition catchable {A} (r : result A) : Prop :=
  match r with
  | Ok _ => True
  | Raise e => is_Exception e = true
  end.

(** What [gather_sources] does with one listed path. *)
Inductive outcome : Type :=
| IsDirectory
| NoReader
| Extracted (text : str)
| Raised (exc : exn).

Section Outcome.

Variable unicode_lower : str -> str.
Variable fs : filesystem.
Variable site : site_packages.

Definition outcome_of (p : Path) : outcome :=
  if is_dir fs p then IsDirectory
  else
    match dict_get (READERS fs site) (lower unicode_lower (suffix p)) with
    | None => NoReader
    | Some reader =>
      match reader p with
      | Ok t => Extracted (strip t)
      | Raise e => Raised e
      end
    end.

Definition gathered_of (l : list Path) : list (Path * str) :=
  flat_map (fun p => match outcome_of p with
                     | Extracted t => [(p, t)]
                     | _ => []
                     end) l.

Definition unsupported_of (l : list Path) : list Path :=
  flat_map (fun p => match outcome_of p with
                     | NoReader => [p]
                     | _ => []
                     end) l.

Definition failures_of (l : list Path) : list (Path * exn) :=
  flat_map (fun p => match outcome_of p with
                     | Raised e => [(p, e)]
                     | _ => []
                     end) l.

(** The direct entries of a directory that are not directories. *)
Definition files_of (d : Path) : list Path :=
  filter (fun p => negb (is_dir fs p)) (glob_star fs d).

End Outcome.

(** [p] is in exactly one of three lists. *)
Definition in_exactly_one {A} (p : A) (l1 l2 l3 : list A) : Prop :=
  (In p l1 /\ ~ In p l2 /\ ~ In p l3)
  \/ (~ In p l1 /\ In p l2 /\ ~ In p l3)
  \/ (~ In p l1 /\ ~ In p l2 /\ In p l3).

(** The extensions with a reader. *)
Definition recognized : list str :=
  [lit ".docx"; lit ".pdf"; lit ".pptx"; lit ".txt"; lit ".md"].

(** Two code points that are equal, or the upper-case and the lower-case
    form of one of the letters [A-Z]. *)
Definition caseless_char_eqb (x y : char) : bool :=
  (x =? y)
  || (in_range 0x41 0x5A x && (y =? x + 0x20))
  || (in_range 0x41 0x5A y && (x =? y + 0x20)).

(** Two strings that differ at most in the case of ASCII letters. *)
Fixpoint caseless_eqb (a b : str) : bool :=
  match a, b with
  | [], [] => true
  | x :: a, y :: b => caseless_char_eqb x y && caseless_eqb a b
  | _, _ => false
  end.

(** A string with none of the letters [A-Z]. *)
Definition no_upper (s : str) : bool :=
  forallb (fun c => negb (in_range 0x41 0x5A c)) s.

(** *** What the docx and pptx extractors write *)

(** The texts of a list, trimmed, without the ones trimming leaves empty. *)
Definition nonempty_stripped (texts : list str) : list str :=
  filter truthy (map strip texts).

(** The line of a table row: its non-empty trimmed cell texts joined by
    [" | "]; no line when it has none. *)
Definition docx_row_line (row : Docx.Row) : list str :=
  match nonempty_stripped (Docx.cells row) with
  | [] => []
  | cells => [join (lit " | ") cells]
  end.

Definition docx_lines (document : Docx.Document) : list str :=
  nonempty_stripped (Docx.paragraphs document)
  ++ flat_map (fun table => flat_map docx_row_line (Docx.rows table))
              (Docx.tables document).

(** The same with one line for every row, as C3 words it. *)
Definition docx_lines_one_per_row (document : Docx.Document) : list str :=
  nonempty_stripped (Docx.paragraphs document)
  ++ flat_map (fun table =>
                 map (fun row =>
                        join (lit " | ") (nonempty_stripped (Docx.cells row)))
                     (Docx.rows table))
              (Docx.tables document).

(** The lines of a body taken block by block, in document order: a
    paragraph gives its trimmed text when that is not empty, a table the
    lines of its rows. *)
Definition body_lines (body : list Docx.Block) : list str :=
  flat_map (fun block =>
              match block with
              | Docx.Paragraph text => nonempty_stripped [text]
              | Docx.TableBlock table =>
                flat_map docx_row_line (Docx.rows table)
              end) body.

(** The same with one line for every row: document order as C3 words
    it. *)
Definition body_lines_one_per_row (body : list Docx.Block) : list str :=
  flat_map (fun block =>
              match block with
              | Docx.Paragraph text => nonempty_stripped [text]
              | Docx.TableBlock table =>
                map (fun row =>
                       join (lit " | ") (nonempty_stripped (Docx.cells row)))
                    (Docx.rows table)
              end) body.

(** The trimmed text of every shape of a slide that has text. *)
Definition shape_texts (slide : Pptx.Slide) : list str :=
  flat_map (fun shape => match shape with
                         | Pptx.NoTextAttr => []
                         | Pptx.HasText t => [strip (or_empty t)]
                         end)
           (Pptx.shapes slide).

Definition slide_header (index : nat) : str :=
  lit "Slide " ++ str_of_nat index ++ lit ":".

(** The block of a slide: header, then the non-empty shape texts, one per
    line; no block when the slide has none. *)
Definition slide_block (numbered : nat * Pptx.Slide) : list str :=
  let '(index, slide) := numbered in
  match filter truthy (shape_texts slide) with
  | [] => []
  | fragments => [slide_header index ++ [NL] ++ join [NL] fragments]
  end.

Definition pptx_blocks (presentation : Pptx.Presentation) : list str :=
  flat_map slide_block (enumerate1 (Pptx.slides presentation)).

(** The same with a line for every shape's text, empty or not, as C6 words
    it. *)
Definition slide_block_every_shape (numbered : nat * Pptx.Slide) : list str :=
  let '(index, slide) := numbered in
  if existsb truthy (shape_texts slide)
  then [slide_header index ++ [NL] ++ join [NL] (shape_texts slide)]
  else [].

Definition pptx_blocks_every_shape (presentation : Pptx.Presentation)
    : list str :=
  flat_map slide_block_every_shape (enumerate1 (Pptx.slides presentation)).

(** ** Sample inputs *)

(** A file system given by the list of its paths, the working directory
    among them. *)
Fixpoint fs_of (l : list (Path * node)) : filesystem :=
  fun p =>
    match l with
    | [] => None
    | (q, n) :: l' => if path_eqb q p then Some n else fs_of l' p
    end.

(** A body with a table between two paragraphs, and a blank row in the
    table. *)
Definition sample_docx_body : list Docx.Block :=
  [ Docx.Paragraph (lit " Intro ");
    Docx.Paragraph (lit "   ");
    Docx.TableBlock
      {| Docx.rows :=
           [ {| Docx.cells := [lit "a"; lit " "; lit "b "] |};
             {| Docx.cells := [lit ""; lit "  "] |};
             {| Docx.cells := [lit "c"] |} ] |};
    Docx.Paragraph (lit "Body") ].

Definition sample_docx : Docx.Document := Docx.of_body sample_docx_body.

Definition sample_pptx : Pptx.Presentation :=
  {| Pptx.slides :=
       [ {| Pptx.shapes := [Pptx.HasText (Some (lit "  ")); Pptx.NoTextAttr] |};
         {| Pptx.shapes := [Pptx.HasText (Some (lit " Title "));
                            Pptx.HasText (Some (lit "  "));
                            Pptx.HasText (Some (lit "Point"))] |} ] |}.

(** An installation with [python-docx] and [python-pptx] and no PDF
    library; each parser rejects an empty file. *)
Definition sample_site : site_packages :=
  {| docx_Document := Some (fun data => match data with
                                        | [] => Failed "Package not found"
                                        | _ :: _ => Parsed sample_docx
                                        end);
     pypdf_PdfReader := None;
     PyPDF2_PdfReader := None;
     pptx_Presentation := Some (fun data => match data with
                                            | [] => Failed "Package not found"
                                            | _ :: _ => Parsed sample_pptx
                                            end) |}.

Definition sample_fs : filesystem :=
  fs_of
    [ ([lit "source"],
       Dir [lit "notes.txt"; lit "skip.csv"; lit "deck.PPTX"; lit "report.docx";
            lit "broken.docx"; lit "sub"; lit "paper.pdf"; lit "README.MD"]);
      ([lit "source"; lit "notes.txt"],
       File (list_byte_of_string "  Hi there ") );
      ([lit "source"; lit "skip.csv"], File (list_byte_of_string "a,b"));
      ([lit "source"; lit "deck.PPTX"], File (list_byte_of_string "PK"));
      ([lit "source"; lit "report.docx"], File (list_byte_of_string "PK"));
      ([lit "source"; lit "broken.docx"], File []);
      ([lit "source"; lit "sub"], Dir []);
      ([lit "source"; lit "paper.pdf"], File (list_byte_of_string "%PDF"));
      ([lit "source"; lit "README.MD"], File [xff; x6f; x6b; x0d; x0a]);
      ([lit "request"; lit "site-brief.yaml"],
       File (list_byte_of_string "goal: test"));
      ([lit "request"; lit "latin1.yaml"], File [x63; x61; x66; xe9]);
      ([lit "request"], Dir [lit "site-brief.yaml"; lit "latin1.yaml"]);
      ([], Dir [lit "source"; lit "request"]) ].

(** Lower-casing that leaves non-ASCII strings alone: enough for the
    samples, whose names are ASCII. *)
Definition sample_lower : str -> str := fun s => s.

Definition sample_now : datetime :=
  {| year := 2026; month := 3; day := 1; hour := 9; minute := 5; second := 0 |}.

(** *** The layout of the bundle *)

(** Every line followed by a newline. *)
Definition unlines (ls : list str) : str :=
  flat_map (fun l => l ++ [NL]) ls.

Definition brief_lines (request_text : str) : list str :=
  if truthy request_text then
    [lit "## Site Brief (`request/site-brief.yaml`)"; lit "```yaml";
     request_text; lit "```"; []]
  else
    [lit "## Site Brief";
     lit "_No site brief found. Fill out `request/site-brief.yaml` to capture your requirements._";
     []].

(** What follows the timestamp line up to the Source Material section. *)
Definition brief_section (request_text : str) : str :=
  unlines ([] :: brief_lines request_text).

(** The body under the heading of one source. *)
Definition entry_body (text : str) : str :=
  if is_empty text then lit "_No extractable text content found._"
  else lit "```text" ++ [NL] ++ text ++ [NL] ++ lit "```".

(** One source: heading line, body, newline. *)
Definition entry_block (entry : Path * str) : str :=
  let '(file_path, text) := entry in
  lit "### " ++ sanitize_heading (name file_path) ++ [NL]
  ++ entry_body text ++ [NL].

Definition source_material (sources : list (Path * str)) : str :=
  lit "## Source Material" ++ [NL]
  ++ match sources with
     | [] =>
       lit "_No supported source files discovered in the `source/` directory._"
       ++ [NL]
     | _ :: _ => join [NL] (map entry_block sources)
     end.

(** The lines the loop of [build_bundle] appends for one source. *)
Definition entry_lines (entry : Path * str) : list str :=
  let '(file_path, text) := entry in
  [lit "### " ++ sanitize_heading (name file_path)]
  ++ (if truthy text then [lit "```text"; text; lit "```"]
      else [lit "_No extractable text content found._"])
  ++ [[]].

(** A string without a newline: one line. *)
Definition no_newline (s : str) : bool :=
  forallb (fun c => negb (c =? NL)) s.

(** ** Proof tactics *)

Ltac break_if :=
  match goal with
  | |- context [if ?b then _ else _] => destruct b eqn:?
  end.

Ltac break_list :=
  match goal with
  | |- context [match ?l with [] => _ | _ :: _ => _ end] =>
    is_var l; destruct l; cbv beta match
  end.

Ltac decoder_cases := repeat first [break_if | break_list].

Ltac bool_hyps :=
  unfold IS_CONTINUATION_BYTE, in_range in *;
  repeat match goal with
  | H : _ || _ = false |- _ => apply orb_false_iff in H; destruct H
  | H : _ && _ = true |- _ => apply andb_true_iff in H; destruct H
  | H : negb _ = false |- _ => apply negb_false_iff in H
  | H : negb _ = true |- _ => apply negb_true_iff in H
  | H : (if ?b then _ else _) = _ |- _ => destruct b eqn:?
  | H : (_ <? _) = true |- _ => apply N.ltb_lt in H
  | H : (_ <? _) = false |- _ => apply N.ltb_ge in H
  | H : (_ <=? _) = true |- _ => apply N.leb_le in H
  | H : (_ <=? _) = false |- _ => apply N.leb_gt in H
  | H : (_ =? _) = true |- _ => apply N.eqb_eq in H
  | H : (_ =? _) = false |- _ => apply N.eqb_neq in H
  | H : _ && _ = false |- _ => apply andb_false_iff in H; destruct H
  | H : _ || _ = true |- _ => apply orb_true_iff in H; destruct H
  end.

Ltac shifts :=
  rewrite ?N.shiftl_mul_pow2 in *;
  change (2 ^ 6) with 64 in *; change (2 ^ 12) with 4096 in *;
  change (2 ^ 18) with 262144 in *.

Ltac arith := zify; Z.to_euclidean_division_equations; lia.

Ltac byte_bounds :=
  repeat match goal with
  | b : byte |- _ =>
    lazymatch goal with
    | H : Byte.to_N b <= 255 |- _ => fail
    | _ => pose proof (Byte.to_N_bounded b)
    end
  end.

Ltac decide_tests :=
  repeat match goal with
  | |- context [if ?b then _ else _] =>
    let E := fresh "E" in
    destruct b eqn:E;
      [try (exfalso; bool_hyps; arith)|try (exfalso; bool_hyps; arith)]
  end.

(** ** Further definitions used to state properties *)

(** The PDF reader class [read_pdf] ends up with: [pypdf]'s when it can be
    imported, else [PyPDF2]'s. *)
Definition pdf_reader_cls (site : site_packages)
    : option (bytes -> parsed Pdf.PdfReader) :=
  match pypdf_PdfReader site with
  | Some cls => Some cls
  | None => PyPDF2_PdfReader site
  end.

(** The trimmed text of each page that has any, given what [extract_text]
    returned for each page. *)
Definition pdf_page_texts (extracted : list (option str)) : list str :=
  filter truthy (map (fun text => strip (or_empty text)) extracted).

Definition sample_pdf : Pdf.PdfReader :=
  {| Pdf.pages :=
       [ {| Pdf.extract_text := Parsed (Some (lit " Page one ")) |};
         {| Pdf.extract_text := Parsed None |};
         {| Pdf.extract_text := Parsed (Some (lit "  ")) |};
         {| Pdf.extract_text := Parsed (Some (lit "Page two")) |} ] |}.

Definition sample_pdf_damaged : Pdf.PdfReader :=
  {| Pdf.pages :=
       [ {| Pdf.extract_text := Parsed (Some (lit "Page one")) |};
         {| Pdf.extract_text := Failed "bad content stream" |};
         {| Pdf.extract_text := Failed "never reached" |} ] |}.

(** An installation with [PyPDF2] only; the parser reads a one-byte file as
    the damaged document. *)
Definition sample_site_pdf : site_packages :=
  {| docx_Document := None;
     pypdf_PdfReader := None;
     PyPDF2_PdfReader := Some (fun data => match data with
                                           | [] => Failed "empty file"
                                           | [_] => Parsed sample_pdf_damaged
                                           | _ :: _ :: _ => Parsed sample_pdf
                                           end);
     pptx_Presentation := None |}.

Definition sample_fs_pdf : filesystem :=
  fs_of [ ([lit "paper.pdf"], File (list_byte_of_string "%PDF"));
          ([lit "damaged.pdf"], File (list_byte_of_string "%"));
          ([], Dir [lit "paper.pdf"; lit "damaged.pdf"]) ].

(** A byte that cannot start a UTF-8 sequence: a continuation byte, [C0],
    [C1], or [F5] and above. *)
Definition invalid_start (b : byte) : bool :=
  let ch := Byte.to_N b in
  in_range 0x80 0xC1 ch || (0xF5 <=? ch).

(** A file's content cut into stretches of encoded text and stray bytes. *)
Inductive segment : Type :=
| Text (t : str)
| Stray (b : byte).

Fixpoint segments_bytes (segs : list segment) : option bytes :=
  match segs with
  | [] => Some []
  | Text t :: rest =>
    match utf8_encode t, segments_bytes rest with
    | Some a, Some b => Some (a ++ b)
    | _, _ => None
    end
  | Stray b :: rest => option_map (cons b) (segments_bytes rest)
  end.

Fixpoint segments_text (segs : list segment) : str :=
  match segs with
  | [] => []
  | Text t :: rest => t ++ segments_text rest
  | Stray _ :: rest => segments_text rest
  end.

Definition strays_invalid (segs : list segment) : bool :=
  forallb (fun s => match s with
                    | Text _ => true
                    | Stray b => invalid_start b
                    end) segs.

(** The lexicographic order on lists over an order [ltb] with equality test
    [eqb]: the shape [str_ltb] and [path_ltb] share. *)
Fixpoint lex_ltb {A} (ltb eqb : A -> A -> bool) (a b : list A) : bool :=
  match a, b with
  | _, [] => false
  | [], _ :: _ => true
  | x :: a', y :: b' => ltb x y || (eqb x y && lex_ltb ltb eqb a' b')
  end.

(** No path of the list is smaller than one before it. *)
Fixpoint ascending (l : list Path) : bool :=
  match l with
  | [] => true
  | p :: rest => forallb (fun q => negb (path_ltb q p)) rest && ascending rest
  end.

(** Two listings of one directory, in different orders. *)
Definition sample_fs_listed_one : filesystem :=
  fs_of [ ([lit "d"], Dir [lit "b.txt"; lit "a.txt"; lit "c.csv"]);
          ([lit "d"; lit "a.txt"], File (list_byte_of_string "A"));
          ([lit "d"; lit "b.txt"], File (list_byte_of_string "B"));
          ([lit "d"; lit "c.csv"], File (list_byte_of_string "C"));
          ([], Dir [lit "d"]) ].

Definition sample_fs_listed_other : filesystem :=
  fs_of [ ([lit "d"], Dir [lit "a.txt"; lit "c.csv"; lit "b.txt"]);
          ([lit "d"; lit "a.txt"], File (list_byte_of_string "A"));
          ([lit "d"; lit "b.txt"], File (list_byte_of_string "B"));
          ([lit "d"; lit "c.csv"], File (list_byte_of_string "C"));
          ([], Dir [lit "d"]) ].

(** A directory whose one file holds only whitespace. *)
Definition sample_fs_blank : filesystem :=
  fs_of [ ([lit "d"], Dir [lit "blank.txt"]);
          ([lit "d"; lit "blank.txt"], File [x20; x0d; x0a; x09]);
          ([], Dir [lit "d"]) ].

(** A directory of names with and without a usable extension. *)
Definition sample_fs_names : filesystem :=
  fs_of [ ([lit "d"],
           Dir [lit "README"; lit ".md"; lit "notes.txt."; lit "a.tar.TXT"]);
          ([lit "d"; lit "README"], File (list_byte_of_string "r"));
          ([lit "d"; lit ".md"], File (list_byte_of_string "m"));
          ([lit "d"; lit "notes.txt."], File (list_byte_of_string "n"));
          ([lit "d"; lit "a.tar.TXT"], File (list_byte_of_string "t"));
          ([], Dir [lit "d"]) ].

Definition DOT : char := 0x2E.

Definition no_dot (s : str) : bool := forallb (fun c => negb (c =? DOT)) s.

(** A non-empty string with no whitespace at either end. *)
Definition visible_ends (s : str) : bool :=
  truthy s && no_leading_space s && no_trailing_space s.

(** A brief saved with a byte order mark. *)
Definition sample_fs_bom : filesystem :=
  fs_of [ ([lit "brief.yaml"], File [xef; xbb; xbf; x68; x69; x0a]);
          ([], Dir [lit "brief.yaml"]) ].

(** *** The summary of a run *)

(** The lines a completed run prints: where the bundle went, then the
    names of the unsupported files under their heading, when there are
    some, then the names and messages of the failures under theirs. *)
Definition summary (resolve : Path -> Path) (exn_str : exn -> str)
    (output_path : Path) (unsupported : list Path)
    (failures : list (Path * exn)) : list str :=
  [[0x2705] ++ lit " Context bundle written to "
   ++ path_str (resolve output_path)]
  ++ match unsupported with
     | [] => []
     | _ :: _ =>
       ([0x26A0; 0xFE0F] ++ lit "  Unsupported files (skipped):")
       :: map (fun path => bullet (name path)) unsupported
     end
  ++ match failures with
     | [] => []
     | _ :: _ =>
       ([0x274C] ++ lit " Files that could not be processed:")
       :: map (fun '(path, error) =>
                 bullet (name path ++ lit ": " ++ exn_str error))
              failures
     end.

(** A standard output that encodes to UTF-8 with strict error handling, as
    in a UTF-8 locale. *)
Definition utf8_stdout (line : str) : option exn :=
  match unencodable_run 0%nat line with
  | Some (start, stop) =>
    Some (UnicodeEncodeError start stop "surrogates not allowed")
  | None => None
  end.

(** The sample file system with its working directory and an empty
    [build] directory. *)
Definition sample_fs_build : filesystem :=
  fs_set (fs_set sample_fs [lit "build"] (Dir []))
         [] (Dir [lit "source"; lit "request"; lit "build"]).

(** A working directory [/work] without symbolic links. *)
Definition sample_resolve (p : Path) : Path := lit "/" :: lit "work" :: p.

Definition sample_exn_str (e : exn) : str :=
  match e with
  | RuntimeError msg _ => msg
  | ThirdPartyError detail => lit detail
  | SystemExit msg => msg
  | _ => []
  end.

(** A run over the sample directory, with a request file that does not
    exist. *)
Definition sample_args : arguments :=
  {| source_dir := [lit "source"];
     request_file := [lit "request"; lit "missing.yaml"];
     output := [lit "build"; lit "context-bundle.md"] |}.

(** * Part II: verification *)

(** ** Facts about [strip] *)

Module PyStrFacts.

Lemma str_eqb_eq a b : str_eqb a b = true <-> a = b.
Proof.
  revert b; induction a as [|x a IH]; intros [|y b]; simpl;
    try (split; congruence).
  rewrite andb_true_iff, N.eqb_eq, IH. split.
  - intros [-> ->]; reflexivity.
  - intros E; inversion E; auto.
Qed.

Lemma str_eqb_refl a : str_eqb a a = true.
Proof. apply str_eqb_eq; reflexivity. Qed.

Lemma lstrip_no_leading s : no_leading_space (lstrip s) = true.
Proof.
  induction s as [|c r IH]; simpl; auto.
  destruct (isspace c) eqn:E; auto. simpl. now rewrite E.
Qed.

Lemma lstrip_fixed s : no_leading_space s = true -> lstrip s = s.
Proof.
  destruct s as [|c r]; simpl; auto.
  destruct (isspace c); simpl; congruence.
Qed.

Lemma rstrip_nil_iff s : rstrip s = [] <-> forallb isspace s = true.
Proof.
  induction s as [|c r IH]; simpl; [tauto|].
  destruct (rstrip r) as [|x r'] eqn:E; simpl.
  - destruct (isspace c); simpl.
    + split; auto. intros _. apply IH; reflexivity.
    + split; congruence.
  - split; [congruence|]. rewrite andb_true_iff. intros [_ H].
    apply IH in H. congruence.
Qed.

Lemma rstrip_app_keep a b : rstrip b <> [] -> rstrip (a ++ b) = a ++ rstrip b.
Proof.
  intros Hb. induction a as [|c a IH]; simpl; auto.
  rewrite IH. destruct (a ++ rstrip b) eqn:E; simpl; auto.
  apply app_eq_nil in E. tauto.
Qed.

Lemma rstrip_app_space a b :
  forallb isspace b = true -> rstrip (a ++ b) = rstrip a.
Proof.
  intros Hb. induction a as [|c a IH]; simpl.
  - now apply rstrip_nil_iff.
  - now rewrite IH.
Qed.

Lemma rstrip_last s c : isspace c = false -> rstrip (s ++ [c]) = s ++ [c].
Proof.
  intros Hc. rewrite rstrip_app_keep; simpl; rewrite Hc; simpl; congruence.
Qed.

Lemma rstrip_prefix s : exists w, s = rstrip s ++ w /\ forallb isspace w = true.
Proof.
  induction s as [|c r (w & Hw & Hs)]; simpl.
  - exists []. auto.
  - destruct (rstrip r) as [|x r'] eqn:E; simpl.
    + simpl in Hw. subst w. destruct (isspace c) eqn:Ec; simpl.
      * exists (c :: r). simpl. now rewrite Ec.
      * exists r. auto.
    + exists w. split; auto. simpl. f_equal. exact Hw.
Qed.

Lemma rstrip_no_trailing s : no_trailing_space (rstrip s) = true.
Proof.
  unfold no_trailing_space.
  induction s as [|c r IH]; simpl; auto.
  destruct (rstrip r) as [|x r'] eqn:E; simpl in *.
  - destruct (isspace c) eqn:Ec; simpl; auto. now rewrite Ec.
  - destruct (rev r' ++ [x]) as [|y t] eqn:E2.
    + destruct (rev r'); discriminate.
    + simpl in *. exact IH.
Qed.

Lemma rstrip_keeps_head s :
  no_leading_space s = true -> no_leading_space (rstrip s) = true.
Proof.
  destruct s as [|c r]; simpl; auto.
  destruct (isspace c) eqn:E; simpl; [discriminate|].
  rewrite andb_false_r. simpl. now rewrite E.
Qed.

Lemma strip_no_leading s : no_leading_space (strip s) = true.
Proof. apply rstrip_keeps_head, lstrip_no_leading. Qed.

Lemma strip_no_trailing s : no_trailing_space (strip s) = true.
Proof. apply rstrip_no_trailing. Qed.

Lemma rstrip_fixed s : no_trailing_space s = true -> rstrip s = s.
Proof.
  unfold no_trailing_space.
  destruct (rstrip_prefix s) as (w & Hw & Hs).
  destruct w as [|c w] using rev_ind.
  - rewrite app_nil_r in Hw. congruence.
  - intros H. rewrite Hw in H. rewrite app_assoc, rev_app_distr in H. simpl in H.
    rewrite forallb_app in Hs. simpl in Hs.
    destruct (isspace c); simpl in *; try discriminate.
    rewrite andb_false_r in Hs. discriminate.
Qed.

Lemma strip_head c s : isspace c = false -> strip (c :: s) = c :: rstrip s.
Proof.
  intros Hc. unfold strip. simpl. rewrite Hc. simpl.
  now rewrite Hc, andb_false_r.
Qed.

End PyStrFacts.

Import PyStrFacts.

(** ** Loops that append *)

Lemma fold_left_append {A B} (f : A -> list B) (l : list A) (acc : list B) :
  fold_left (fun acc x => acc ++ f x) l acc = acc ++ flat_map f l.
Proof.
  revert acc; induction l as [|x l IH]; intros acc; simpl.
  - now rewrite app_nil_r.
  - now rewrite IH, app_assoc.
Qed.

Lemma fold_left_ext {A B} (f g : A -> B -> A) (l : list B) (a : A) :
  (forall a b, f a b = g a b) -> fold_left f l a = fold_left g l a.
Proof.
  intros H; revert a; induction l as [|x l IH]; intros a; simpl; auto.
  now rewrite H, IH.
Qed.

(** ** Only catchable exceptions leave an extractor *)

Create HintDb catch.

Lemma catchable_bind {A B} (m : result A) (k : A -> result B) :
  catchable m -> (forall a, catchable (k a)) -> catchable (bind m k).
Proof. destruct m; simpl; auto. Qed.

Lemma catchable_lift {A} (r : parsed A) : catchable (lift r).
Proof. destruct r; simpl; auto. Qed.

Lemma catchable_read_bytes fs p : catchable (read_bytes fs p).
Proof. unfold read_bytes. destruct (fs p) as [[|]|]; simpl; auto. Qed.

Lemma catchable_construct {A} fs (cls : bytes -> parsed A) p :
  catchable (construct fs cls p).
Proof.
  unfold construct. apply catchable_bind.
  - apply catchable_read_bytes.
  - intros; apply catchable_lift.
Qed.

#[local] Hint Resolve catchable_bind catchable_lift catchable_read_bytes
  catchable_construct : catch.

(** ** The decoder, one step at a time *)

Lemma utf8_decode_step errors pos s :
  utf8_decode errors pos s =
  match decode_step s with
  | Done => Ok []
  | Char c n rest => emit c (utf8_decode errors (pos + n) rest)
  | Bad n reason rest =>
    decode_error errors pos (pos + n) reason
      (utf8_decode errors (pos + n) rest)
  end.
Proof.
  destruct s as [|b0 s1]; [reflexivity|].
  cbn [utf8_decode decode_step]. decoder_cases; reflexivity.
Qed.

Lemma decode_step_char s c n rest :
  decode_step s = Char c n rest ->
  s = firstn n s ++ rest /\ (length rest < length s)%nat.
Proof.
  destruct s as [|b0 s1]; [discriminate|].
  cbn [decode_step]. decoder_cases; intros H; inversion H; subst; simpl;
    split; auto; lia.
Qed.

Lemma decode_step_bad s n reason rest :
  decode_step s = Bad n reason rest -> (length rest < length s)%nat.
Proof.
  destruct s as [|b0 s1]; [discriminate|].
  cbn [decode_step]. decoder_cases; intros H; inversion H; subst; simpl; lia.
Qed.

(** Induction along the decoder's steps. *)
Lemma decoder_ind (P : bytes -> Prop) :
  (forall s, decode_step s = Done -> P s) ->
  (forall s c n rest, decode_step s = Char c n rest -> P rest -> P s) ->
  (forall s n reason rest, decode_step s = Bad n reason rest -> P rest -> P s) ->
  forall s, P s.
Proof.
  intros HD HC HB s.
  remember (length s) as k eqn:Hk.
  revert s Hk. induction k as [k IH] using lt_wf_ind. intros s ->.
  destruct (decode_step s) as [|c n rest|n reason rest] eqn:E.
  - now apply HD.
  - apply (HC _ _ _ _ E). apply (IH (length rest)); auto.
    now apply decode_step_char in E.
  - apply (HB _ _ _ _ E). apply (IH (length rest)); auto.
    now apply decode_step_bad in E.
Qed.

(** With [errors="ignore"] decoding always yields a string. *)
Lemma utf8_decode_ignore_total s :
  forall pos, exists t, utf8_decode ignore pos s = Ok t.
Proof.
  induction s as [s E|s c n rest E IH|s n reason rest E IH] using decoder_ind;
    intros pos; rewrite utf8_decode_step, E.
  - eauto.
  - destruct (IH (pos + n)%nat) as [t ->]. simpl. eauto.
  - simpl. apply IH.
Qed.

(** A failed decoding is a [UnicodeDecodeError]. *)
Lemma utf8_decode_raises errors s :
  forall pos e, utf8_decode errors pos s = Raise e ->
  exists a b r, e = UnicodeDecodeError a b r.
Proof.
  induction s as [s E|s c n rest E IH|s n reason rest E IH] using decoder_ind;
    intros pos e; rewrite utf8_decode_step, E.
  - discriminate.
  - destruct (utf8_decode errors (pos + n) rest) eqn:D; simpl.
    + discriminate.
    + intros H; inversion H; subst. eapply IH; eauto.
  - destruct errors; simpl.
    + intros H; inversion H; eauto.
    + apply IH.
Qed.

Lemma catchable_utf8_decode errors pos s : catchable (utf8_decode errors pos s).
Proof.
  destruct (utf8_decode errors pos s) eqn:E; simpl; auto.
  apply utf8_decode_raises in E. destruct E as (a & b & r & ->). reflexivity.
Qed.

#[local] Hint Resolve catchable_utf8_decode : catch.

Lemma catchable_fmap {A B} (f : A -> B) (m : result A) :
  catchable m -> catchable (fmap f m).
Proof. destruct m; simpl; auto. Qed.

Lemma catchable_fold {A B} (f : result A -> B -> result A) l :
  (forall acc x, catchable acc -> catchable (f acc x)) ->
  forall acc, catchable acc -> catchable (fold_left f l acc).
Proof.
  intros Hf; induction l as [|x l IH]; intros acc Hacc; simpl; auto.
Qed.

#[local] Hint Resolve catchable_fmap : catch.

Section Readers.

Variable fs : filesystem.
Variable site : site_packages.

Lemma catchable_read_text errors p : catchable (read_text fs errors p).
Proof.
  unfold read_text. apply catchable_bind; auto with catch.
  intros data. apply catchable_bind; auto with catch. intros; exact I.
Qed.

Lemma catchable_read_docx p : catchable (read_docx fs site p).
Proof.
  unfold read_docx. destruct (docx_Document site); [|reflexivity].
  apply catchable_bind; auto with catch. intros; exact I.
Qed.

Lemma catchable_read_pdf p : catchable (read_pdf fs site p).
Proof.
  unfold read_pdf. apply catchable_bind.
  - destruct (pypdf_PdfReader site); [exact I|].
    destruct (PyPDF2_PdfReader site); [exact I|reflexivity].
  - intros cls. apply catchable_bind; auto with catch.
    intros reader. apply catchable_bind; [|intros; exact I].
    apply catchable_fold; [|exact I].
    intros acc page Hacc. apply catchable_bind; auto.
    intros pages. apply catchable_bind; auto with catch. intros; exact I.
Qed.

Lemma catchable_read_pptx p : catchable (read_pptx fs site p).
Proof.
  unfold read_pptx. destruct (pptx_Presentation site); [|reflexivity].
  apply catchable_bind; auto with catch. intros; exact I.
Qed.

Lemma catchable_read_plain_text p : catchable (read_plain_text fs p).
Proof. unfold read_plain_text. auto using catchable_read_text with catch. Qed.

(** The keys of [READERS] are the five recognized extensions. *)
Lemma READERS_keys key :
  (exists reader, dict_get (READERS fs site) key = Some reader)
  <-> In key recognized.
Proof.
  unfold READERS, recognized. cbn [dict_get In]. split.
  - intros [reader H].
    repeat match type of H with
           | (if str_eqb ?k key then _ else _) = _ =>
             destruct (str_eqb k key) eqn:E;
               [apply str_eqb_eq in E; tauto | clear E]
           end.
    discriminate.
  - intros H.
    repeat (destruct H as [<- | H]; [eexists; reflexivity|]).
    contradiction.
Qed.

Lemma readers_catchable key reader p :
  dict_get (READERS fs site) key = Some reader -> catchable (reader p).
Proof.
  unfold READERS. cbn [dict_get]. intros H.
  repeat match type of H with
         | (if ?b then _ else _) = _ => destruct b
         end;
    inversion H; subst;
    auto using catchable_read_docx, catchable_read_pdf, catchable_read_pptx,
      catchable_read_plain_text.
Qed.

Variable unicode_lower : str -> str.

(** One turn of the loop files the path by its outcome. *)
Lemma gather_step_outcome g u f p :
  gather_step unicode_lower fs site (Ok (g, u, f)) p =
  Ok (g ++ gathered_of unicode_lower fs site [p],
      u ++ unsupported_of unicode_lower fs site [p],
      f ++ failures_of unicode_lower fs site [p]).
Proof.
  unfold gather_step, gathered_of, unsupported_of, failures_of, outcome_of.
  cbn [bind flat_map].
  destruct (is_dir fs p); [now rewrite !app_nil_r|].
  destruct (dict_get _ _) as [reader|] eqn:R; [|now rewrite !app_nil_r].
  pose proof (readers_catchable _ _ p R) as C.
  destruct (reader p) as [t|e]; simpl in *.
  - now rewrite !app_nil_r.
  - rewrite C. now rewrite !app_nil_r.
Qed.

Lemma gather_fold l : forall g u f,
  fold_left (gather_step unicode_lower fs site) l (Ok (g, u, f)) =
  Ok (g ++ gathered_of unicode_lower fs site l,
      u ++ unsupported_of unicode_lower fs site l,
      f ++ failures_of unicode_lower fs site l).
Proof.
  induction l as [|p l IH]; intros g u f.
  - simpl. now rewrite !app_nil_r.
  - cbn [fold_left]. rewrite gather_step_outcome, IH.
    unfold gathered_of, unsupported_of, failures_of.
    cbn [flat_map]. now rewrite !app_nil_r, <- !app_assoc.
Qed.

(** [gather_sources] always returns, with the listing filed by outcome. *)
Lemma gather_sources_eq d :
  gather_sources unicode_lower fs site d =
  let l := sorted (glob_star fs d) in
  Ok (gathered_of unicode_lower fs site l,
      unsupported_of unicode_lower fs site l,
      failures_of unicode_lower fs site l).
Proof. unfold gather_sources. now rewrite gather_fold. Qed.

End Readers.

(** ** Sorting keeps the listing *)

Lemma insert_sorted_perm p l : Permutation (insert_sorted p l) (p :: l).
Proof.
  induction l as [|q l IH]; simpl; auto.
  destruct (path_ltb q p); auto.
  rewrite IH. apply perm_swap.
Qed.

Lemma sorted_perm l : Permutation (sorted l) l.
Proof.
  induction l as [|p l IH]; simpl; auto.
  rewrite insert_sorted_perm. now constructor.
Qed.

Lemma filter_perm {A} (f : A -> bool) l l' :
  Permutation l l' -> Permutation (filter f l) (filter f l').
Proof.
  induction 1 as [|x l l' _ IH|x y l|l l' l'' _ IH1 _ IH2]; simpl; auto.
  - destruct (f x); auto.
  - destruct (f x), (f y); auto. apply perm_swap.
  - now rewrite IH1.
Qed.

(** ** The three buckets *)

Section Buckets.

Variable unicode_lower : str -> str.
Variable fs : filesystem.
Variable site : site_packages.

Local Abbreviation oc := (outcome_of unicode_lower fs site).
Local Abbreviation G := (gathered_of unicode_lower fs site).
Local Abbreviation U := (unsupported_of unicode_lower fs site).
Local Abbreviation F := (failures_of unicode_lower fs site).

Lemma in_gathered l p t :
  In (p, t) (G l) <-> In p l /\ oc p = Extracted t.
Proof.
  unfold gathered_of. rewrite in_flat_map. split.
  - intros (q & Hq & H).
    destruct (oc q) eqn:E; simpl in H; try contradiction.
    destruct H as [H|[]]. inversion H; subst. auto.
  - intros [Hp E]. exists p. split; auto.
    rewrite E. now left.
Qed.

Lemma in_unsupported l p :
  In p (U l) <-> In p l /\ oc p = NoReader.
Proof.
  unfold unsupported_of. rewrite in_flat_map. split.
  - intros (q & Hq & H).
    destruct (oc q) eqn:E; simpl in H; try contradiction.
    destruct H as [H|[]]. subst. auto.
  - intros [Hp E]. exists p. split; auto.
    rewrite E. now left.
Qed.

Lemma in_failures l p e :
  In (p, e) (F l) <-> In p l /\ oc p = Raised e.
Proof.
  unfold failures_of. rewrite in_flat_map. split.
  - intros (q & Hq & H).
    destruct (oc q) eqn:E; simpl in H; try contradiction.
    destruct H as [H|[]]. inversion H; subst. auto.
  - intros [Hp E]. exists p. split; auto.
    rewrite E. now left.
Qed.

Lemma in_gathered_paths l p :
  In p (map fst (G l)) <-> In p l /\ exists t, oc p = Extracted t.
Proof.
  rewrite in_map_iff. split.
  - intros ([q t] & <- & H). apply in_gathered in H. simpl. destruct H; eauto.
  - intros (Hp & t & E). exists (p, t). split; auto. now apply in_gathered.
Qed.

Lemma in_failed_paths l p :
  In p (map fst (F l)) <-> In p l /\ exists e, oc p = Raised e.
Proof.
  rewrite in_map_iff. split.
  - intros ([q e] & <- & H). apply in_failures in H. simpl. destruct H; eauto.
  - intros (Hp & e & E). exists (p, e). split; auto. now apply in_failures.
Qed.

Lemma buckets_perm l :
  Permutation (map fst (G l) ++ U l ++ map fst (F l))
              (filter (fun p => negb (is_dir fs p)) l).
Proof.
  induction l as [|p l IH]; [constructor|].
  unfold gathered_of, unsupported_of, failures_of in *.
  cbn [flat_map filter]. unfold outcome_of at 1 3 5.
  destruct (is_dir fs p); cbn [negb app map]; [exact IH|].
  destruct (dict_get _ _) as [reader|]; [destruct (reader p)|];
    cbn [app map fst].
  - now constructor.
  - rewrite <- !Permutation_middle. now constructor.
  - rewrite <- Permutation_middle. now constructor.
Qed.

Lemma not_dir_outcome p :
  is_dir fs p = false ->
  (exists t, oc p = Extracted t) \/ oc p = NoReader
  \/ (exists e, oc p = Raised e).
Proof.
  intros H. unfold outcome_of. rewrite H.
  destruct (dict_get _ _) as [reader|]; [destruct (reader p)|]; eauto.
Qed.

Lemma buckets_exactly_one l p :
  In p l -> is_dir fs p = false ->
  in_exactly_one p (map fst (G l)) (U l) (map fst (F l)).
Proof.
  intros Hp Hd. unfold in_exactly_one.
  rewrite in_gathered_paths, in_unsupported, in_failed_paths.
  destruct (not_dir_outcome p Hd) as [[t E]|[E|[e E]]]; rewrite E.
  - left. split; [eauto|]. split.
    + intros [_ H]; discriminate.
    + intros [_ [? H]]; discriminate.
  - right; left. split; [|split; [auto|]]; intros [_ [? H]]; discriminate.
  - right; right. split; [|split; [|eauto]].
    + intros [_ [? H]]; discriminate.
    + intros [_ H]; discriminate.
Qed.

End Buckets.

(** ** The gatherer *)

(** C1.  For every source directory [gather_sources] returns, and its three
    collections partition the direct entries that are not directories:
    the paths of the gathered results, the unsupported paths and the paths
    of the failure records are together a rearrangement of that listing;
    every such entry is in exactly one of the three; nothing else is in any
    of them; and no path is repeated when the listing repeats none. *)
Theorem gather_sources_partition
    (unicode_lower : str -> str) (fs : filesystem) (site : site_packages)
    (source_dir : Path) :
  exists gathered unsupported failures,
    gather_sources unicode_lower fs site source_dir
    = Ok (gathered, unsupported, failures)
    /\ Permutation (map fst gathered ++ unsupported ++ map fst failures)
                   (files_of fs source_dir)
    /\ (forall p, In p (files_of fs source_dir) ->
          in_exactly_one p (map fst gathered) unsupported (map fst failures))
    /\ (forall p, In p (map fst gathered ++ unsupported ++ map fst failures) ->
          In p (files_of fs source_dir))
    /\ (NoDup (glob_star fs source_dir) ->
          NoDup (map fst gathered ++ unsupported ++ map fst failures)).
Proof.
  rewrite gather_sources_eq. cbv zeta.
  set (l := sorted (glob_star fs source_dir)).
  do 3 eexists. split; [reflexivity|].
  assert (P : Permutation
                (map fst (gathered_of unicode_lower fs site l)
                 ++ unsupported_of unicode_lower fs site l
                 ++ map fst (failures_of unicode_lower fs site l))
                (files_of fs source_dir)).
  { rewrite buckets_perm. apply filter_perm, sorted_perm. }
  split; [exact P|]. split; [|split].
  - intros p Hp. unfold files_of in Hp. apply filter_In in Hp.
    destruct Hp as [Hp Hd]. apply negb_true_iff in Hd.
    apply buckets_exactly_one; auto.
    apply (Permutation_in _ (Permutation_sym (sorted_perm _))), Hp.
  - intros p Hp. apply (Permutation_in _ P), Hp.
  - intros ND. apply (Permutation_NoDup (Permutation_sym P)).
    apply NoDup_filter, ND.
Qed.

Lemma files_of_sorted fs d p :
  In p (files_of fs d) <->
  In p (sorted (glob_star fs d)) /\ is_dir fs p = false.
Proof.
  unfold files_of. rewrite filter_In, negb_true_iff.
  split; intros [H1 H2]; split; auto.
  - apply (Permutation_in _ (Permutation_sym (sorted_perm _))), H1.
  - apply (Permutation_in _ (sorted_perm _)), H1.
Qed.

Lemma rfind_absent (c : char) (s : str) :
  forallb (fun x => negb (x =? c)) s = true -> rfind c s = None.
Proof.
  induction s as [|x r IH]; [reflexivity|]. cbn [forallb rfind].
  intros H. apply andb_true_iff in H. destruct H as [Hx Hr].
  apply negb_true_iff in Hx. now rewrite (IH Hr), Hx.
Qed.

Lemma rfind_last (c : char) (a b : str) :
  forallb (fun x => negb (x =? c)) b = true ->
  rfind c (a ++ c :: b) = Some (length a).
Proof.
  intros H. induction a as [|x a IH]; cbn [app rfind length].
  - now rewrite (rfind_absent _ _ H), N.eqb_refl.
  - now rewrite IH.
Qed.

Lemma suffix_of_name (d : Path) (stem ext : str) :
  stem <> [] -> ext <> [] -> no_dot ext = true ->
  suffix (joinpath d (stem ++ DOT :: ext)) = DOT :: ext.
Proof.
  intros Hs He Hd. unfold suffix, joinpath, name. rewrite last_last.
  change 0x2E with DOT. rewrite (rfind_last _ _ _ Hd).
  rewrite length_app. cbn [length].
  assert (L1 : (0 <? length stem)%nat = true)
    by (apply Nat.ltb_lt; destruct stem; [congruence|simpl; lia]).
  assert (L2 : (length stem <? length stem + S (length ext) - 1)%nat = true)
    by (apply Nat.ltb_lt; destruct ext; [congruence|simpl; lia]).
  rewrite L1, L2. cbn [andb].
  rewrite skipn_app, Nat.sub_diag, skipn_all. reflexivity.
Qed.

Lemma suffix_none (d : Path) (nm : str) :
  no_dot nm = true
  \/ (exists rest, nm = DOT :: rest /\ no_dot rest = true)
  \/ (exists stem, nm = stem ++ [DOT]) ->
  suffix (joinpath d nm) = [].
Proof.
  unfold suffix, joinpath, name. rewrite last_last. change 0x2E with DOT.
  intros [H|[(rest & -> & H)|(stem & ->)]].
  - now rewrite (rfind_absent _ _ H).
  - pose proof (rfind_last DOT [] rest H) as R. cbn [app length] in R.
    now rewrite R.
  - rewrite (rfind_last DOT stem [] eq_refl), length_app. cbn [length].
    replace (length stem + 1 - 1)%nat with (length stem) by lia.
    rewrite Nat.ltb_irrefl. now rewrite andb_false_r.
Qed.

Lemma caseless_char_lower (x y : char) :
  negb (in_range 0x41 0x5A y) = true ->
  caseless_char_eqb x y = true <-> ascii_lower x = y.
Proof.
  unfold caseless_char_eqb, ascii_lower, in_range.
  repeat match goal with
         | |- context [?a <=? ?b] => destruct (N.leb_spec a b)
         | |- context [?a =? ?b] => destruct (N.eqb_spec a b)
         end; cbn; intros ?; split; intros ?;
    try discriminate; try reflexivity; lia.
Qed.

Lemma caseless_lower (sfx : str) :
  forall e, no_upper e = true ->
            caseless_eqb sfx e = true <-> map ascii_lower sfx = e.
Proof.
  induction sfx as [|x sfx IH]; intros [|y e] H; cbn [caseless_eqb map];
    try (split; intros; (discriminate || reflexivity)).
  cbn [no_upper forallb] in H. apply andb_true_iff in H. destruct H as [Hy He].
  rewrite andb_true_iff, (caseless_char_lower _ _ Hy), (IH e He).
  split; [intros [-> ->]; reflexivity|intros [= -> ->]; auto].
Qed.

Lemma recognized_no_upper (e : str) : In e recognized -> no_upper e = true.
Proof.
  intros H. unfold recognized in H.
  repeat (destruct H as [<-|H]; [reflexivity|]). destruct H.
Qed.

(** A lower-cased ASCII extension is a recognized one exactly when the
    extension is a recognized one up to the case of its letters. *)
Lemma recognized_caseless (unicode_lower : str -> str) (sfx : str) :
  forallb is_ascii sfx = true ->
  In (lower unicode_lower sfx) recognized
  <-> existsb (caseless_eqb sfx) recognized = true.
Proof.
  intros H. unfold lower. rewrite H, existsb_exists. split.
  - intros K. exists (map ascii_lower sfx). split; [exact K|].
    now apply caseless_lower; [apply recognized_no_upper|].
  - intros (e & K & E).
    apply caseless_lower in E; [now subst|now apply recognized_no_upper].
Qed.

(** C5.  The extractor of a file is chosen by looking its lower-cased
    extension up in [READERS], whose keys are exactly [.docx], [.pdf],
    [.pptx], [.txt] and [.md]; on an ASCII extension lower-casing maps
    [A-Z] to [a-z] and nothing else.  A file with a recognized extension is
    handed to that reader and ends among the gathered results or the
    failures; any other file ends among the unsupported paths and is not
    among the gathered results, which are all the bundle is built from.
    The extension of a name [stem.ext] is [.ext], from the last dot on,
    and a name without a dot has none.  The match ignores case: a file
    named [stem.ext] with an ASCII extension is handed to a reader exactly
    when [.ext] is one of the five extensions up to the case of its
    letters, so [Notes.TXT] and [Plan.Docx] are read as [.txt] and
    [.docx], and [notes.text] is unsupported. *)
Theorem extension_dispatch
    (unicode_lower : str -> str) (fs : filesystem) (site : site_packages)
    (source_dir : Path) :
  exists gathered unsupported failures,
    gather_sources unicode_lower fs site source_dir
    = Ok (gathered, unsupported, failures)
    /\ (forall key,
          (exists reader, dict_get (READERS fs site) key = Some reader)
          <-> In key recognized)
    /\ (forall sfx, forallb is_ascii sfx = true ->
          lower unicode_lower sfx = map ascii_lower sfx)
    /\ (forall p, In p (files_of fs source_dir) ->
          let key := lower unicode_lower (suffix p) in
          (forall reader, dict_get (READERS fs site) key = Some reader ->
             match reader p with
             | Ok text => In (p, strip text) gathered
             | Raise exc => In (p, exc) failures
             end)
          /\ (In key recognized ->
                (In p (map fst gathered) \/ In p (map fst failures))
                /\ ~ In p unsupported)
          /\ (~ In key recognized ->
                In p unsupported
                /\ ~ In p (map fst gathered) /\ ~ In p (map fst failures)))
    /\ (forall stem ext, stem <> [] -> ext <> [] -> no_dot ext = true ->
          suffix (joinpath source_dir (stem ++ DOT :: ext)) = DOT :: ext)
    /\ (forall nm, no_dot nm = true -> suffix (joinpath source_dir nm) = [])
    /\ (forall sfx, forallb is_ascii sfx = true ->
          In (lower unicode_lower sfx) recognized
          <-> existsb (caseless_eqb sfx) recognized = true)
    /\ (forall stem ext,
          In (joinpath source_dir (stem ++ DOT :: ext))
             (files_of fs source_dir) ->
          stem <> [] -> ext <> [] -> no_dot ext = true ->
          forallb is_ascii ext = true ->
          let p := joinpath source_dir (stem ++ DOT :: ext) in
          if existsb (caseless_eqb (DOT :: ext)) recognized
          then (In p (map fst gathered) \/ In p (map fst failures))
               /\ ~ In p unsupported
          else In p unsupported
               /\ ~ In p (map fst gathered) /\ ~ In p (map fst failures))
    /\ lower unicode_lower (suffix (joinpath source_dir (lit "Notes.TXT")))
       = lit ".txt"
    /\ lower unicode_lower (suffix (joinpath source_dir (lit "Plan.v2.Docx")))
       = lit ".docx"
    /\ existsb (caseless_eqb (suffix (joinpath source_dir (lit "Notes.TXT"))))
               recognized = true
    /\ existsb (caseless_eqb (suffix (joinpath source_dir (lit "notes.text"))))
               recognized = false
    /\ caseless_eqb (lit ".PdF") (lit ".pdf") = true
    /\ caseless_eqb (lit ".pdx") (lit ".pdf") = false
    /\ caseless_eqb (lit ".pd") (lit ".pdf") = false.
Proof.
  rewrite gather_sources_eq. cbv zeta.
  set (l := sorted (glob_star fs source_dir)).
  do 3 eexists. split; [reflexivity|].
  split; [apply READERS_keys|]. split.
  { intros sfx H. unfold lower. now rewrite H. }
  assert (Files : forall p, In p (files_of fs source_dir) ->
            let key := lower unicode_lower (suffix p) in
            (forall reader, dict_get (READERS fs site) key = Some reader ->
               match reader p with
               | Ok text => In (p, strip text) (gathered_of unicode_lower fs site l)
               | Raise exc => In (p, exc) (failures_of unicode_lower fs site l)
               end)
            /\ (In key recognized ->
                  (In p (map fst (gathered_of unicode_lower fs site l))
                   \/ In p (map fst (failures_of unicode_lower fs site l)))
                  /\ ~ In p (unsupported_of unicode_lower fs site l))
            /\ (~ In key recognized ->
                  In p (unsupported_of unicode_lower fs site l)
                  /\ ~ In p (map fst (gathered_of unicode_lower fs site l))
                  /\ ~ In p (map fst (failures_of unicode_lower fs site l)))).
  2: { split; [exact Files|].
       split; [intros stem ext; apply suffix_of_name|].
       split; [intros nm H; apply suffix_none; auto|].
       split; [apply recognized_caseless|].
       split.
       - intros stem ext Hp Hs He Hd Ha.
         set (p := joinpath source_dir (stem ++ DOT :: ext)) in *.
         destruct (Files p Hp) as (_ & Y & N). cbv zeta in Y, N.
         assert (A : forallb is_ascii (suffix p) = true)
           by (unfold p; rewrite (suffix_of_name _ _ _ Hs He Hd);
               cbn [forallb]; now rewrite Ha).
         pose proof (recognized_caseless unicode_lower _ A) as C.
         unfold p in C at 2. rewrite (suffix_of_name _ _ _ Hs He Hd) in C.
         destruct (existsb _ recognized) eqn:E.
         + apply Y, C. reflexivity.
         + apply N. intros K. apply C in K. discriminate.
       - unfold suffix, joinpath, name. rewrite !last_last.
         repeat split; reflexivity. }
  intros p Hp. apply files_of_sorted in Hp. destruct Hp as [Hp Hd].
  fold l in Hp.
  assert (O : forall reader,
             dict_get (READERS fs site) (lower unicode_lower (suffix p))
             = Some reader ->
             outcome_of unicode_lower fs site p
             = match reader p with
               | Ok t => Extracted (strip t)
               | Raise e => Raised e
               end).
  { intros reader R. unfold outcome_of. now rewrite Hd, R. }
  split; [|split].
  - intros reader R. specialize (O reader R).
    destruct (reader p).
    + apply in_gathered; auto.
    + apply in_failures; auto.
  - intros K. apply (proj2 (READERS_keys fs site _)) in K.
    destruct K as [reader R].
    specialize (O reader R).
    rewrite in_gathered_paths, in_failed_paths, in_unsupported. split.
    + destruct (reader p); [left|right]; eauto.
    + intros [_ E]. rewrite E in O. destruct (reader p); discriminate.
  - intros K.
    assert (N : outcome_of unicode_lower fs site p = NoReader).
    { unfold outcome_of. rewrite Hd.
      destruct (dict_get _ _) as [reader|] eqn:R; auto.
      exfalso. apply K. apply (proj1 (READERS_keys fs site _)). eauto. }
    rewrite in_gathered_paths, in_failed_paths, in_unsupported.
    rewrite N. repeat split; auto; intros [_ [? H]]; discriminate.
Qed.

(** C10.  Every gathered result holds text with no whitespace at either
    end, whichever extractor produced it: the gatherer strips the
    extractor's output before recording it. *)
Theorem gathered_text_is_stripped
    (unicode_lower : str -> str) (fs : filesystem) (site : site_packages)
    (source_dir : Path) :
  exists gathered unsupported failures,
    gather_sources unicode_lower fs site source_dir
    = Ok (gathered, unsupported, failures)
    /\ forall p text, In (p, text) gathered ->
         no_leading_space text = true
         /\ no_trailing_space text = true
         /\ strip text = text
         /\ exists reader raw,
              dict_get (READERS fs site) (lower unicode_lower (suffix p))
              = Some reader
              /\ reader p = Ok raw /\ text = strip raw.
Proof.
  rewrite gather_sources_eq. cbv zeta.
  do 3 eexists. split; [reflexivity|].
  intros p text H. apply in_gathered in H. destruct H as [_ E].
  unfold outcome_of in E.
  destruct (is_dir fs p); [discriminate|].
  destruct (dict_get _ _) as [reader|] eqn:R; [|discriminate].
  destruct (reader p) as [raw|] eqn:Q; [|discriminate].
  inversion E; subst.
  split; [apply strip_no_leading|]. split; [apply strip_no_trailing|].
  split; [|eauto].
  unfold strip at 1. rewrite lstrip_fixed by apply strip_no_leading.
  apply rstrip_fixed, strip_no_trailing.
Qed.

(** ** The docx and pptx extractors *)

Lemma comprehension_stripped (texts : list str) :
  map strip (filter (fun text => truthy (strip text)) texts)
  = nonempty_stripped texts.
Proof.
  unfold nonempty_stripped.
  induction texts as [|t l IH]; simpl; auto.
  destruct (truthy (strip t)); simpl; now rewrite IH.
Qed.

Lemma fold_left_keep {A} (f : A -> str) (l : list A) (acc : list str) :
  fold_left (fun acc x => let text := f x in
                          if truthy text then acc ++ [text] else acc) l acc
  = acc ++ filter truthy (map f l).
Proof.
  revert acc; induction l as [|x l IH]; intros acc; simpl.
  - now rewrite app_nil_r.
  - rewrite IH. destruct (truthy (f x)); auto.
    now rewrite <- app_assoc.
Qed.

Lemma docx_loops (document : Docx.Document) :
  fold_left (fun pieces table =>
    fold_left (fun pieces row =>
                 let cells :=
                   map strip (filter (fun cell => truthy (strip cell))
                                     (Docx.cells row)) in
                 match cells with
                 | [] => pieces
                 | _ :: _ => pieces ++ [join (lit " | ") cells]
                 end)
              (Docx.rows table) pieces)
    (Docx.tables document)
    (fold_left (fun pieces paragraph =>
                  let text := strip paragraph in
                  if truthy text then pieces ++ [text] else pieces)
               (Docx.paragraphs document) [])
  = docx_lines document.
Proof.
  rewrite (fold_left_keep strip). simpl. unfold docx_lines.
  fold (nonempty_stripped (Docx.paragraphs document)).
  generalize (nonempty_stripped (Docx.paragraphs document)) as acc.
  induction (Docx.tables document) as [|table l IH]; intros acc; simpl.
  - now rewrite app_nil_r.
  - rewrite (fold_left_ext _ (fun pieces row => pieces ++ docx_row_line row)).
    + rewrite fold_left_append, IH. now rewrite <- app_assoc.
    + intros pieces row. cbv zeta. rewrite comprehension_stripped.
      unfold docx_row_line.
      destruct (nonempty_stripped (Docx.cells row)); auto.
      now rewrite app_nil_r.
Qed.

Lemma pptx_fragments_from (l : list Pptx.Shape) (acc : list str) :
  fold_left (fun fragments shape =>
               match shape with
               | Pptx.NoTextAttr => fragments
               | Pptx.HasText t =>
                 let text := strip (or_empty t) in
                 if truthy text then fragments ++ [text] else fragments
               end)
            l acc
  = acc ++ filter truthy
             (flat_map (fun shape => match shape with
                                     | Pptx.NoTextAttr => []
                                     | Pptx.HasText t => [strip (or_empty t)]
                                     end) l).
Proof.
  revert acc; induction l as [|shape l IH]; intros acc; cbn [fold_left].
  - simpl. now rewrite app_nil_r.
  - rewrite IH. destruct shape as [|t]; cbn [flat_map app filter]; auto.
    destruct (truthy (strip (or_empty t))); auto.
    now rewrite <- app_assoc.
Qed.

Lemma pptx_fragments (slide : Pptx.Slide) :
  fold_left (fun fragments shape =>
               match shape with
               | Pptx.NoTextAttr => fragments
               | Pptx.HasText t =>
                 let text := strip (or_empty t) in
                 if truthy text then fragments ++ [text] else fragments
               end)
            (Pptx.shapes slide) []
  = filter truthy (shape_texts slide).
Proof. apply pptx_fragments_from. Qed.

Lemma pptx_loops (presentation : Pptx.Presentation) :
  fold_left (fun slides_output '(index, slide) =>
    let fragments :=
      fold_left (fun fragments shape =>
                   match shape with
                   | Pptx.NoTextAttr => fragments
                   | Pptx.HasText t =>
                     let text := strip (or_empty t) in
                     if truthy text then fragments ++ [text] else fragments
                   end)
                (Pptx.shapes slide) [] in
    match fragments with
    | [] => slides_output
    | _ :: _ =>
      slides_output
        ++ [lit "Slide " ++ str_of_nat index ++ lit ":" ++ [NL]
            ++ join [NL] fragments]
    end)
    (enumerate1 (Pptx.slides presentation)) []
  = pptx_blocks presentation.
Proof.
  unfold pptx_blocks.
  rewrite (fold_left_ext _ (fun out numbered => out ++ slide_block numbered)).
  - now rewrite fold_left_append.
  - intros out [index slide]. cbv zeta. rewrite pptx_fragments.
    unfold slide_block, slide_header.
    destruct (filter truthy (shape_texts slide)).
    + now rewrite app_nil_r.
    + now rewrite <- !app_assoc.
Qed.

(** [enumerate(l, start=1)] numbers an item by its place in the whole
    list. *)
Lemma enumerate_from {A} (l : list A) (k i : nat) (x : A) :
  In (i, x) (combine (seq k (length l)) l)
  <-> (k <= i)%nat /\ nth_error l (i - k) = Some x.
Proof.
  revert k; induction l as [|y l IH]; intros k; simpl.
  - split; [tauto|]. intros [_ H]. destruct (i - k)%nat; discriminate.
  - rewrite IH. split.
    + intros [H|[H1 H2]].
      * inversion H; subst. rewrite Nat.sub_diag. auto.
      * split; [lia|]. replace (i - k)%nat with (S (i - S k)) by lia. exact H2.
    + intros [H1 H2]. destruct (Nat.eq_dec i k) as [->|N].
      * rewrite Nat.sub_diag in H2. simpl in H2. inversion H2. auto.
      * right. split; [lia|].
        replace (i - k)%nat with (S (i - S k)) in H2 by lia. exact H2.
Qed.

Lemma enumerate1_spec {A} (l : list A) (i : nat) (x : A) :
  In (i, x) (enumerate1 l) <-> (1 <= i)%nat /\ nth_error l (i - 1) = Some x.
Proof. apply enumerate_from. Qed.

Lemma docx_lines_agree (document : Docx.Document) :
  (forall table row, In table (Docx.tables document) ->
     In row (Docx.rows table) ->
     existsb truthy (map strip (Docx.cells row)) = true) ->
  docx_lines document = docx_lines_one_per_row document.
Proof.
  intros H. unfold docx_lines, docx_lines_one_per_row. f_equal.
  induction (Docx.tables document) as [|table l IH]; simpl; auto.
  rewrite IH by (intros; eapply H; simpl; eauto). f_equal.
  assert (Hr : forall row, In row (Docx.rows table) ->
                 existsb truthy (map strip (Docx.cells row)) = true)
    by (intros; eapply H; simpl; eauto).
  clear -Hr. induction (Docx.rows table) as [|row rs IHr]; simpl; auto.
  rewrite IHr by (intros; apply Hr; simpl; auto).
  specialize (Hr row (or_introl eq_refl)).
  unfold docx_row_line, nonempty_stripped.
  destruct (filter truthy (map strip (Docx.cells row))) eqn:E; auto.
  apply existsb_exists in Hr. destruct Hr as (c & Hc & Tc).
  assert (In c (filter truthy (map strip (Docx.cells row))))
    by (apply filter_In; auto).
  rewrite E in *. contradiction.
Qed.

Lemma body_lines_app (a b : list Docx.Block) :
  body_lines (a ++ b) = body_lines a ++ body_lines b.
Proof. apply flat_map_app. Qed.

(** The extractor's lines are those of the body with its paragraphs moved
    before its tables, each group kept in document order. *)
Lemma docx_lines_of_body (body : list Docx.Block) :
  docx_lines (Docx.of_body body)
  = body_lines (filter Docx.is_paragraph body ++ filter Docx.is_table body).
Proof.
  rewrite body_lines_app. unfold docx_lines, Docx.of_body.
  cbn [Docx.paragraphs Docx.tables]. f_equal.
  - induction body as [|[text|table] body IH]; [reflexivity| |exact IH].
    cbn [flat_map filter Docx.is_paragraph app body_lines].
    fold (body_lines (filter Docx.is_paragraph body)). rewrite <- IH.
    unfold nonempty_stripped. cbn [map filter].
    now destruct (truthy (strip text)).
  - induction body as [|[text|table] body IH]; [reflexivity|exact IH|].
    cbn [flat_map filter Docx.is_table Docx.is_paragraph negb app
         body_lines].
    fold (body_lines (filter Docx.is_table body)). now rewrite <- IH.
Qed.

Lemma filter_paragraphs_first (texts : list str) (tables : list Docx.Table) :
  filter Docx.is_paragraph
    (map Docx.Paragraph texts ++ map Docx.TableBlock tables)
  ++ filter Docx.is_table
       (map Docx.Paragraph texts ++ map Docx.TableBlock tables)
  = map Docx.Paragraph texts ++ map Docx.TableBlock tables.
Proof.
  rewrite !filter_app. f_equal.
  - replace (filter Docx.is_paragraph (map Docx.TableBlock tables)) with
      (@nil Docx.Block) by (induction tables; auto).
    rewrite app_nil_r. induction texts; simpl; congruence.
  - replace (filter Docx.is_table (map Docx.Paragraph texts)) with
      (@nil Docx.Block) by (induction texts; auto).
    unfold Docx.is_table. cbn [app]. induction tables; simpl; congruence.
Qed.

(** C3, amended.  When [python-docx] is installed and parses the file, the
    docx extractor returns these lines joined by newlines: first the
    non-empty trimmed paragraph texts, in the order of
    [document.paragraphs]; then, table by table and row by row, one line
    for each row that has a non-empty trimmed cell text, joining those
    texts with [" | "].  A row with no such cell gives no line; when every
    row has one, the output is one line per row.  Against the body of the
    document, these are the lines of the body with all its paragraphs
    moved before its tables, each group in document order; they are in
    document order when no paragraph follows a table. *)
Theorem read_docx_output
    (fs : filesystem) (site : site_packages)
    (Document : bytes -> parsed Docx.Document)
    (file_path : Path) (data : bytes) (document : Docx.Document) :
  docx_Document site = Some Document ->
  fs file_path = Some (File data) ->
  Document data = Parsed document ->
  read_docx fs site file_path = Ok (join [NL] (docx_lines document))
  /\ ((forall table row, In table (Docx.tables document) ->
         In row (Docx.rows table) ->
         existsb truthy (map strip (Docx.cells row)) = true) ->
      docx_lines document = docx_lines_one_per_row document)
  /\ (forall body,
        document = Docx.of_body body ->
        docx_lines document
        = body_lines (filter Docx.is_paragraph body
                      ++ filter Docx.is_table body))
  /\ (forall texts tables,
        document
        = Docx.of_body (map Docx.Paragraph texts
                        ++ map Docx.TableBlock tables) ->
        docx_lines document
        = body_lines (map Docx.Paragraph texts
                      ++ map Docx.TableBlock tables)).
Proof.
  intros HD HF HP. split; [|split; [apply docx_lines_agree|split]].
  - unfold read_docx, construct, read_bytes. rewrite HD, HF. cbn [bind].
    rewrite HP. cbn [lift bind]. now rewrite docx_loops.
  - intros body ->. apply docx_lines_of_body.
  - intros texts tables ->.
    now rewrite docx_lines_of_body, filter_paragraphs_first.
Qed.

Lemma read_docx_output_sample :
  docx_Document sample_site
  = Some (fun data => match data with
                      | [] => Failed "Package not found"
                      | _ :: _ => Parsed sample_docx
                      end)
  /\ sample_fs [lit "source"; lit "report.docx"]
     = Some (File (list_byte_of_string "PK"))
  /\ read_docx sample_fs sample_site [lit "source"; lit "report.docx"]
     = Ok (lit "Intro" ++ [NL] ++ lit "Body" ++ [NL] ++ lit "a | b" ++ [NL]
           ++ lit "c").
Proof.
  split; [reflexivity|]. split; [reflexivity|].
  exact (proj1 (read_docx_output sample_fs sample_site _
                  [lit "source"; lit "report.docx"] _ sample_docx
                  eq_refl eq_refl eq_refl)).
Defined.

(** The second row of the sample table has only blank cells; one line per
    row would put an empty line for it between ["a | b"] and ["c"], and
    the extractor writes none. *)
Lemma read_docx_skips_blank_rows :
  read_docx sample_fs sample_site [lit "source"; lit "report.docx"]
  = Ok (lit "Intro" ++ [NL] ++ lit "Body" ++ [NL] ++ lit "a | b" ++ [NL]
        ++ lit "c")
  /\ join [NL] (docx_lines_one_per_row sample_docx)
     = lit "Intro" ++ [NL] ++ lit "Body" ++ [NL] ++ lit "a | b" ++ [NL]
       ++ [NL] ++ lit "c"
  /\ length (docx_lines sample_docx) = 4%nat
  /\ length (docx_lines_one_per_row sample_docx) = 5%nat.
Proof. repeat split; vm_compute; reflexivity. Qed.

(** C3 as worded fails twice on the sample, whose body is a paragraph, a
    table with a blank row, and a second paragraph.  In document order
    with one line per row the text would be [Intro], [a | b], an empty
    line, [c], [Body].  The extractor writes [Intro], [Body], [a | b],
    [c]: it puts the paragraph that follows the table before the table's
    rows, and it writes no line for the blank row.  Either departure alone
    already gives a different text. *)
Lemma read_docx_departs_from_document_order :
  sample_docx = Docx.of_body sample_docx_body
  /\ read_docx sample_fs sample_site [lit "source"; lit "report.docx"]
     = Ok (lit "Intro" ++ [NL] ++ lit "Body" ++ [NL] ++ lit "a | b" ++ [NL]
           ++ lit "c")
  /\ join [NL] (body_lines_one_per_row sample_docx_body)
     = lit "Intro" ++ [NL] ++ lit "a | b" ++ [NL] ++ [NL] ++ lit "c" ++ [NL]
       ++ lit "Body"
  /\ join [NL] (body_lines sample_docx_body)
     = lit "Intro" ++ [NL] ++ lit "a | b" ++ [NL] ++ lit "c" ++ [NL]
       ++ lit "Body"
  /\ join [NL] (docx_lines_one_per_row sample_docx)
     = lit "Intro" ++ [NL] ++ lit "Body" ++ [NL] ++ lit "a | b" ++ [NL]
       ++ [NL] ++ lit "c".
Proof. repeat split; vm_compute; reflexivity. Qed.

Lemma slide_block_empty (index : nat) (slide : Pptx.Slide) :
  slide_block (index, slide) = []
  <-> existsb truthy (shape_texts slide) = false.
Proof.
  unfold slide_block.
  induction (shape_texts slide) as [|t l IH]; simpl; [tauto|].
  destruct (truthy t); simpl.
  - split; discriminate.
  - exact IH.
Qed.

(** C6, amended.  When [python-pptx] is installed and parses the file, the
    pptx extractor returns, separated by blank lines, one block for each
    slide that has a shape with non-empty trimmed text: the header
    ["Slide N:"], where N counts the slide's place among all slides from 1,
    followed by the non-empty trimmed texts of its shapes, in order, each
    on a new line.  A shape whose text is empty after trimming gives no
    line, and a slide with no text gives no block. *)
Theorem read_pptx_output
    (fs : filesystem) (site : site_packages)
    (Presentation : bytes -> parsed Pptx.Presentation)
    (file_path : Path) (data : bytes) (presentation : Pptx.Presentation) :
  pptx_Presentation site = Some Presentation ->
  fs file_path = Some (File data) ->
  Presentation data = Parsed presentation ->
  read_pptx fs site file_path
  = Ok (join [NL; NL]
          (flat_map slide_block (enumerate1 (Pptx.slides presentation))))
  /\ (forall index slide,
        In (index, slide) (enumerate1 (Pptx.slides presentation))
        <-> (1 <= index)%nat
            /\ nth_error (Pptx.slides presentation) (index - 1) = Some slide)
  /\ (forall index slide,
        slide_block (index, slide) = []
        <-> existsb truthy (shape_texts slide) = false)
  /\ (forall index slide,
        forallb truthy (shape_texts slide) = true ->
        slide_block (index, slide) = slide_block_every_shape (index, slide)).
Proof.
  intros HD HF HP. split; [|split; [|split]].
  - unfold read_pptx, construct, read_bytes. rewrite HD, HF. cbn [bind].
    rewrite HP. cbn [lift bind]. now rewrite pptx_loops.
  - intros. apply enumerate1_spec.
  - apply slide_block_empty.
  - intros index slide H. unfold slide_block, slide_block_every_shape.
    assert (E : filter truthy (shape_texts slide) = shape_texts slide).
    { induction (shape_texts slide) as [|t l IH]; simpl in *; auto.
      apply andb_true_iff in H. destruct H as [-> H]. now rewrite IH. }
    rewrite E. destruct (shape_texts slide) as [|t l]; simpl in *; auto.
    apply andb_true_iff in H. destruct H as [-> _]. reflexivity.
Qed.

Lemma read_pptx_output_sample :
  pptx_Presentation sample_site
  = Some (fun data => match data with
                      | [] => Failed "Package not found"
                      | _ :: _ => Parsed sample_pptx
                      end)
  /\ sample_fs [lit "source"; lit "deck.PPTX"]
     = Some (File (list_byte_of_string "PK"))
  /\ read_pptx sample_fs sample_site [lit "source"; lit "deck.PPTX"]
     = Ok (lit "Slide 2:" ++ [NL] ++ lit "Title" ++ [NL] ++ lit "Point").
Proof.
  split; [reflexivity|]. split; [reflexivity|].
  exact (proj1 (read_pptx_output sample_fs sample_site _
                  [lit "source"; lit "deck.PPTX"] _ sample_pptx
                  eq_refl eq_refl eq_refl)).
Defined.

(** C6 as worded fails: the second sample slide has a shape whose text is
    blank between ["Title"] and ["Point"]; a line for each shape's trimmed
    text would leave an empty line there, and the extractor writes none.
    The numbering is as claimed: the first slide has no text and the block
    is still headed ["Slide 2:"]. *)
Lemma read_pptx_skips_blank_shapes :
  read_pptx sample_fs sample_site [lit "source"; lit "deck.PPTX"]
  = Ok (lit "Slide 2:" ++ [NL] ++ lit "Title" ++ [NL] ++ lit "Point")
  /\ join [NL; NL] (pptx_blocks_every_shape sample_pptx)
     = lit "Slide 2:" ++ [NL] ++ lit "Title" ++ [NL] ++ [NL] ++ lit "Point".
Proof. split; vm_compute; reflexivity. Qed.

(** ** Errors of the extractors *)

Lemma construct_failed {A} fs (cls : bytes -> parsed A) p data detail :
  fs p = Some (File data) -> cls data = Failed detail ->
  construct fs cls p = Raise (ThirdPartyError detail).
Proof.
  intros HF HP. unfold construct, read_bytes. rewrite HF. cbn [bind].
  now rewrite HP.
Qed.

(** C4, amended.  An extractor whose parsing module cannot be imported
    raises a [RuntimeError] whose message names the package and the
    [pip install] command, with the import error as its cause (for pdf,
    when neither [pypdf] nor [PyPDF2] can be imported).  When the parser
    rejects the file, the parser's own exception leaves the extractor as it
    is, not wrapped in another.  Either way [gather_sources] catches the
    exception, records it with the path among the failures, and returns. *)
Theorem extractor_errors
    (unicode_lower : str -> str) (fs : filesystem) (site : site_packages) :
  (docx_Document site = None ->
     forall p, read_docx fs site p
               = Raise (RuntimeError docx_required
                          (Some (ModuleNotFoundError "docx"))))
  /\ (pypdf_PdfReader site = None -> PyPDF2_PdfReader site = None ->
        forall p, read_pdf fs site p
                  = Raise (RuntimeError pdf_required
                             (Some (ModuleNotFoundError "PyPDF2"))))
  /\ (pptx_Presentation site = None ->
        forall p, read_pptx fs site p
                  = Raise (RuntimeError pptx_required
                             (Some (ModuleNotFoundError "pptx"))))
  /\ (contains (lit "python-docx") docx_required
      && contains (lit "pip install python-docx") docx_required
      && contains (lit "pypdf or PyPDF2") pdf_required
      && contains (lit "pip install pypdf") pdf_required
      && contains (lit "python-pptx") pptx_required
      && contains (lit "pip install python-pptx") pptx_required = true)
  /\ (forall Document p data detail,
        docx_Document site = Some Document ->
        fs p = Some (File data) -> Document data = Failed detail ->
        read_docx fs site p = Raise (ThirdPartyError detail))
  /\ (forall PdfReader p data detail,
        pypdf_PdfReader site = Some PdfReader
        \/ (pypdf_PdfReader site = None
            /\ PyPDF2_PdfReader site = Some PdfReader) ->
        fs p = Some (File data) -> PdfReader data = Failed detail ->
        read_pdf fs site p = Raise (ThirdPartyError detail))
  /\ (forall Presentation p data detail,
        pptx_Presentation site = Some Presentation ->
        fs p = Some (File data) -> Presentation data = Failed detail ->
        read_pptx fs site p = Raise (ThirdPartyError detail))
  /\ (forall source_dir,
        exists gathered unsupported failures,
          gather_sources unicode_lower fs site source_dir
          = Ok (gathered, unsupported, failures)
          /\ forall p reader exc,
               In p (files_of fs source_dir) ->
               dict_get (READERS fs site) (lower unicode_lower (suffix p))
               = Some reader ->
               reader p = Raise exc ->
               In (p, exc) failures /\ ~ In p (map fst gathered)).
Proof.
  split; [|split; [|split; [|split; [|split; [|split; [|split]]]]]].
  - intros H p. unfold read_docx. now rewrite H.
  - intros H1 H2 p. unfold read_pdf. now rewrite H1, H2.
  - intros H p. unfold read_pptx. now rewrite H.
  - vm_compute. reflexivity.
  - intros Document p data detail H HF HP. unfold read_docx. rewrite H.
    now rewrite (construct_failed _ _ _ _ _ HF HP).
  - intros PdfReader p data detail H HF HP. unfold read_pdf.
    destruct H as [H|[H1 H2]]; [rewrite H|rewrite H1, H2]; cbn [bind];
      now rewrite (construct_failed _ _ _ _ _ HF HP).
  - intros Presentation p data detail H HF HP. unfold read_pptx. rewrite H.
    now rewrite (construct_failed _ _ _ _ _ HF HP).
  - intros source_dir. rewrite gather_sources_eq. cbv zeta.
    do 3 eexists. split; [reflexivity|].
    intros p reader exc Hp R E. apply files_of_sorted in Hp.
    destruct Hp as [Hp Hd].
    assert (O : outcome_of unicode_lower fs site p = Raised exc).
    { unfold outcome_of. now rewrite Hd, R, E. }
    split.
    + apply in_failures. auto.
    + rewrite in_gathered_paths. intros [_ [t H]]. congruence.
Qed.

(** C4 as worded fails: no extractor wraps a parse failure.  On the sample
    file the parser rejects, [read_docx] raises the parser's exception
    itself, which has no cause; and the missing PDF library surfaces as a
    plain [RuntimeError]. *)
Lemma parse_failure_is_not_wrapped :
  read_docx sample_fs sample_site [lit "source"; lit "broken.docx"]
  = Raise (ThirdPartyError "Package not found")
  /\ exn_cause (ThirdPartyError "Package not found") = None
  /\ read_pdf sample_fs sample_site [lit "source"; lit "paper.pdf"]
     = Raise (RuntimeError pdf_required (Some (ModuleNotFoundError "PyPDF2"))).
Proof. repeat split. Qed.

(** ** The bundle *)

Lemma join_cons (sep x : str) (rest : list str) :
  rest <> [] -> join sep (x :: rest) = x ++ sep ++ join sep rest.
Proof. destruct rest; [congruence|reflexivity]. Qed.

Lemma join_snoc (ls : list str) (x : str) :
  join [NL] (ls ++ [x]) = unlines ls ++ x.
Proof.
  induction ls as [|l ls IH]; [reflexivity|].
  rewrite <- app_comm_cons, join_cons by (destruct ls; discriminate).
  rewrite IH. unfold unlines. cbn [flat_map]. now rewrite <- !app_assoc.
Qed.

Lemma unlines_app (a b : list str) : unlines (a ++ b) = unlines a ++ unlines b.
Proof. apply flat_map_app. Qed.

Lemma join_blocks {A} (f : A -> str) (l : list A) (x : A) :
  flat_map (fun e => f e ++ [NL]) l ++ f x = join [NL] (map f (l ++ [x])).
Proof.
  rewrite map_app. cbn [map]. rewrite join_snoc. f_equal.
  unfold unlines. induction l as [|e l IH]; cbn [flat_map map]; congruence.
Qed.

(** Trimming a string that starts and ends with visible characters and is
    followed by whitespace gives the string. *)
Lemma strip_core (c d : char) (s w : str) :
  isspace c = false -> isspace d = false -> forallb isspace w = true ->
  strip (c :: s ++ [d] ++ w) = c :: s ++ [d].
Proof.
  intros Hc Hd Hw. rewrite strip_head by exact Hc. f_equal.
  rewrite app_assoc, rstrip_app_space by exact Hw.
  now apply rstrip_last.
Qed.

Lemma entry_body_last (text : str) :
  exists s d, entry_body text = s ++ [d] /\ isspace d = false.
Proof.
  unfold entry_body. destruct (is_empty text).
  - exists (lit "_No extractable text content found."), 0x5F. now vm_compute.
  - exists (lit "```text" ++ [NL] ++ text ++ [NL] ++ lit "``"), 0x60.
    split; [|reflexivity]. now rewrite <- !app_assoc.
Qed.

Lemma unlines_entry_lines (entry : Path * str) :
  unlines (entry_lines entry) = entry_block entry ++ [NL].
Proof.
  destruct entry as [p text]. unfold entry_lines, entry_block, entry_body.
  unfold truthy. destruct (is_empty text); cbn [negb];
    rewrite !unlines_app; unfold unlines; cbn [flat_map];
    rewrite <- ?app_assoc; cbn [app]; reflexivity.
Qed.

Lemma bundle_loop (sources : list (Path * str)) (lines : list str) :
  fold_left (fun lines '(file_path, text) =>
    let heading := sanitize_heading (name file_path) in
    let lines := lines ++ [lit "### " ++ heading] in
    let lines :=
      if truthy text then
        lines ++ [lit "```text"] ++ [text] ++ [lit "```"]
      else lines ++ [lit "_No extractable text content found._"] in
    lines ++ [[]])
    sources lines
  = lines ++ flat_map entry_lines sources.
Proof.
  rewrite <- fold_left_append. apply fold_left_ext.
  intros a [p text]. unfold entry_lines. cbv zeta.
  destruct (truthy text); now rewrite <- !app_assoc.
Qed.

Lemma strip_then_newline (c d : char) (s : str) :
  isspace c = false -> isspace d = false ->
  strip (c :: s ++ [d] ++ [NL]) ++ [NL] = c :: s ++ [d] ++ [NL].
Proof.
  intros Hc Hd. rewrite strip_core; auto. cbn [app].
  now rewrite <- app_assoc.
Qed.

Lemma strip_visible_ends (c d : char) (s : str) :
  isspace c = false -> isspace d = false ->
  strip (c :: s ++ [d]) = c :: s ++ [d].
Proof.
  intros Hc Hd. rewrite <- (app_nil_r [d]) at 1.
  now apply strip_core.
Qed.

Lemma unlines_entries (l : list (Path * str)) :
  unlines (flat_map entry_lines l)
  = flat_map (fun e => entry_block e ++ [NL]) l.
Proof.
  induction l as [|e l IH]; [reflexivity|].
  cbn [flat_map]. now rewrite unlines_app, unlines_entry_lines, IH.
Qed.

Lemma entry_lines_core (entry : Path * str) :
  exists core, entry_lines entry = core ++ [[]]
               /\ unlines core = entry_block entry.
Proof.
  destruct entry as [p text]. unfold entry_lines, entry_block, entry_body.
  unfold truthy. destruct (is_empty text); cbn [negb].
  - exists [lit "### " ++ sanitize_heading (name p);
            lit "_No extractable text content found._"].
    split; [reflexivity|]. unfold unlines. cbn [flat_map].
    now rewrite <- !app_assoc.
  - exists [lit "### " ++ sanitize_heading (name p);
            lit "```text"; text; lit "```"].
    split; [reflexivity|]. unfold unlines. cbn [flat_map].
    now rewrite <- !app_assoc.
Qed.

Lemma join_entry_lines (pre : list str) (l : list (Path * str))
    (e : Path * str) :
  join [NL] (pre ++ flat_map entry_lines (l ++ [e]))
  = unlines pre ++ join [NL] (map entry_block (l ++ [e])).
Proof.
  rewrite <- join_blocks, flat_map_app. cbn [flat_map]. rewrite app_nil_r.
  destruct (entry_lines_core e) as (core & -> & <-).
  replace (pre ++ flat_map entry_lines l ++ core ++ [[]])
    with ((pre ++ flat_map entry_lines l ++ core) ++ [[]])
    by now rewrite <- !app_assoc.
  rewrite join_snoc, app_nil_r, !unlines_app, unlines_entries.
  reflexivity.
Qed.

(** The lines of the bundle, before they are joined. *)
Lemma bundle_lines (now : datetime) (request_text : str)
    (sources : list (Path * str)) :
  build_bundle now request_text sources
  = strip (join [NL]
             ([lit "# Website Request Bundle";
               lit "Generated: " ++ isoformat now; []]
              ++ brief_lines request_text
              ++ [lit "## Source Material"]
              ++ match sources with
                 | [] => [lit "_No supported source files discovered in the `source/` directory._"]
                 | _ :: _ => flat_map entry_lines sources
                 end))
    ++ [NL].
Proof.
  unfold build_bundle, brief_lines. cbv zeta.
  destruct (truthy request_text), sources as [|e l];
    rewrite ?bundle_loop; cbn [app]; rewrite <- ?app_assoc; reflexivity.
Qed.

(** The text of the bundle: title, timestamp line, brief section, Source
    Material section. *)
Lemma build_bundle_layout (now : datetime) (request_text : str)
    (sources : list (Path * str)) :
  build_bundle now request_text sources
  = lit "# Website Request Bundle" ++ [NL]
    ++ lit "Generated: " ++ isoformat now ++ [NL]
    ++ brief_section request_text ++ source_material sources.
Proof.
  rewrite bundle_lines.
  set (title := lit "# Website Request Bundle").
  set (gen := lit "Generated: " ++ isoformat now).
  set (B := brief_lines request_text).
  assert (Pre : forall z, unlines ([title; gen; []] ++ B) ++ z
                = 0x23 :: lit " Website Request Bundle" ++ [NL]
                  ++ gen ++ [NL] ++ brief_section request_text ++ z).
  { intros z. unfold brief_section. fold B. rewrite unlines_app.
    unfold unlines at 1. cbn [flat_map]. unfold unlines at 2.
    cbn [flat_map]. fold (unlines B). unfold title.
    rewrite <- !app_assoc. reflexivity. }
  unfold source_material.
  destruct sources as [|e l].
  - replace ([title; gen; []] ++ B ++ [lit "## Source Material"]
             ++ [lit "_No supported source files discovered in the `source/` directory._"])
      with ((([title; gen; []] ++ B) ++ [lit "## Source Material"])
            ++ [lit "_No supported source files discovered in the `source/` directory._"])
      by now rewrite <- !app_assoc.
    rewrite join_snoc, unlines_app, <- app_assoc, Pre.
    unfold unlines. cbn [flat_map]. rewrite app_nil_r.
    change (lit "_No supported source files discovered in the `source/` directory._")
      with (lit "_No supported source files discovered in the `source/` directory." ++ [0x5F]).
    rewrite !app_assoc, strip_visible_ends by reflexivity.
    rewrite <- app_comm_cons.
    unfold title, gen. rewrite <- !app_assoc. reflexivity.
  - destruct (@exists_last _ (e :: l)) as (l' & e' & E); [discriminate|].
    rewrite E. clear E e l.
    assert (J : join [NL] ([title; gen; []] ++ B ++ [lit "## Source Material"]
                           ++ flat_map entry_lines (l' ++ [e']))
                = unlines ([title; gen; []] ++ B)
                  ++ lit "## Source Material" ++ [NL]
                  ++ join [NL] (map entry_block (l' ++ [e']))).
    { replace ([title; gen; []] ++ B ++ [lit "## Source Material"]
               ++ flat_map entry_lines (l' ++ [e']))
        with ((([title; gen; []] ++ B) ++ [lit "## Source Material"])
              ++ flat_map entry_lines (l' ++ [e']))
        by now rewrite <- !app_assoc.
      rewrite join_entry_lines, unlines_app, <- app_assoc.
      unfold unlines at 2. cbn [flat_map]. now rewrite app_nil_r, <- app_assoc. }
    assert (D : l' ++ [e'] <> []) by (destruct l'; discriminate).
    destruct (l' ++ [e']) as [|x y] eqn:Es; [congruence|].
    rewrite <- Es in *. clear D.
    rewrite J, Pre.
    rewrite <- join_blocks.
    destruct e' as [p text].
    destruct (entry_body_last text) as (s & d & Hb & Hd).
    unfold entry_block at 2. rewrite Hb.
    rewrite !app_assoc. rewrite <- (app_assoc _ [d] [NL]).
    rewrite strip_then_newline by (auto; reflexivity).
    unfold gen, title, entry_block. rewrite Hb, <- !app_assoc. reflexivity.
Qed.

Lemma sanitize_heading_map (text : str) :
  sanitize_heading text
  = map (fun c => if c =? 0x60 then 0x2019 else c) text.
Proof.
  unfold sanitize_heading, replace.
  induction text as [|c r IH]; simpl; [reflexivity|].
  rewrite IH. now destruct (c =? 96).
Qed.

Lemma sanitize_heading_no_backtick (text : str) :
  forallb (fun c => negb (c =? 0x60)) (sanitize_heading text) = true.
Proof.
  rewrite sanitize_heading_map.
  induction text as [|c r IH]; simpl; [reflexivity|].
  rewrite IH, andb_true_r. now destruct (c =? 96) eqn:E; [|rewrite E].
Qed.

(** C7.  In the Source Material section of the bundle every gathered entry,
    in order, is rendered as a heading line ["### "] followed by the
    file's name with every backtick replaced by U+2019, then the extracted
    text between the fence lines [```text] and [```] when it is not empty,
    or the notice [_No extractable text content found._] when it is; the
    entries are separated by one empty line. *)
Theorem source_material_rendering
    (now : datetime) (request_text : str) (sources : list (Path * str)) :
  build_bundle now request_text sources
  = (lit "# Website Request Bundle" ++ [NL]
     ++ lit "Generated: " ++ isoformat now ++ [NL]
     ++ brief_section request_text)
    ++ source_material sources
  /\ (forall entry rest,
        source_material (entry :: rest)
        = lit "## Source Material" ++ [NL]
          ++ join [NL] (map entry_block (entry :: rest)))
  /\ (forall file_path text,
        entry_block (file_path, text)
        = lit "### "
          ++ map (fun c => if c =? 0x60 then 0x2019 else c) (name file_path)
          ++ [NL]
          ++ (if is_empty text
              then lit "_No extractable text content found._"
              else lit "```text" ++ [NL] ++ text ++ [NL] ++ lit "```")
          ++ [NL])
  /\ (forall file_path,
        forallb (fun c => negb (c =? 0x60))
                (sanitize_heading (name file_path)) = true).
Proof.
  split; [|split; [|split]].
  - rewrite build_bundle_layout. now rewrite <- !app_assoc.
  - reflexivity.
  - intros. unfold entry_block, entry_body.
    now rewrite sanitize_heading_map.
  - intros. apply sanitize_heading_no_backtick.
Qed.

(** ** The timestamp line *)

Lemma no_newline_app (a b : str) :
  no_newline (a ++ b) = no_newline a && no_newline b.
Proof. apply forallb_app. Qed.

Lemma no_newline_digits (u : Decimal.uint) : no_newline (uint_digits u) = true.
Proof. induction u; simpl; auto. Qed.

Lemma no_newline_zero_padded (w : nat) (n : N) :
  no_newline (zero_padded w n) = true.
Proof.
  unfold zero_padded. rewrite no_newline_app, no_newline_digits, andb_true_r.
  induction (w - length (uint_digits (N.to_uint n)))%nat; simpl; auto.
Qed.

Lemma no_newline_isoformat (dt : datetime) : no_newline (isoformat dt) = true.
Proof.
  unfold isoformat.
  rewrite !no_newline_app, !no_newline_zero_padded. reflexivity.
Qed.

Lemma split_line (a b : str) :
  no_newline a = true -> split NL (a ++ NL :: b) = a :: split NL b.
Proof.
  induction a as [|c a IH]; intros H.
  - reflexivity.
  - simpl in H. apply andb_true_iff in H. destruct H as [Hc Ha].
    apply negb_true_iff in Hc. cbn [app split]. rewrite Hc.
    now rewrite IH.
Qed.

(** C2.  [build_bundle] depends on nothing but the brief text, the list of
    sources and the timestamp it reads: with the same timestamp two calls
    return the same text, and with different timestamps the two texts have
    the same lines except the second, which is ["Generated: "] followed by
    the timestamp. *)
Theorem build_bundle_deterministic
    (request_text : str) (sources : list (Path * str)) :
  (forall now1 now2,
     isoformat now1 = isoformat now2 ->
     build_bundle now1 request_text sources
     = build_bundle now2 request_text sources)
  /\ exists rest,
       forall now,
         split NL (build_bundle now request_text sources)
         = lit "# Website Request Bundle"
           :: (lit "Generated: " ++ isoformat now)
           :: rest.
Proof.
  split.
  - intros now1 now2 H. rewrite !build_bundle_layout. now rewrite H.
  - exists (split NL (brief_section request_text ++ source_material sources)).
    intros now. rewrite build_bundle_layout.
    change (?a ++ [NL] ++ ?b) with (a ++ NL :: b).
    rewrite split_line by reflexivity. f_equal.
    rewrite app_assoc.
    change (?a ++ [NL] ++ ?b) with (a ++ NL :: b).
    rewrite split_line; [reflexivity|].
    rewrite no_newline_app, no_newline_isoformat. reflexivity.
Qed.

(** ** The decoder against the encoding *)

Lemma byte_of_to_N (b : byte) : byte_of (Byte.to_N b) = b.
Proof. unfold byte_of. now rewrite Byte.of_to_N. Qed.

Lemma byte_of_eq (n : N) (b : byte) : n = Byte.to_N b -> byte_of n = b.
Proof. intros ->. apply byte_of_to_N. Qed.

Lemma to_N_byte_of (n : N) : n <= 255 -> Byte.to_N (byte_of n) = n.
Proof.
  intros H. unfold byte_of. destruct (Byte.of_N n) eqn:E.
  - now apply Byte.to_of_N.
  - apply Byte.of_N_None_iff in E. lia.
Qed.

(** A code point the decoder reads is the one whose encoding the bytes
    are. *)
Lemma decode_step_sound (s : bytes) (c : char) (n : nat) (rest : bytes) :
  decode_step s = Char c n rest ->
  exists bs, encode_char c = Some bs /\ s = bs ++ rest /\ length bs = n.
Proof.
  destruct s as [|b0 s1]; [discriminate|].
  cbn [decode_step]. decoder_cases; intros H; inversion H; subst; clear H;
    byte_bounds; bool_hyps; shifts; unfold encode_char, in_range;
    repeat match goal with
    | |- context [if ?x <? ?y then _ else _] =>
      destruct (N.ltb_spec x y); [try (exfalso; arith)|try (exfalso; arith)]
    | |- context [if (?x <=? ?y) && _ then _ else _] =>
      destruct (N.leb_spec x y); cbn [andb];
        [try (exfalso; arith)|try (exfalso; arith)]
    | |- context [if ?x <=? ?y then _ else _] =>
      destruct (N.leb_spec x y); [try (exfalso; arith)|try (exfalso; arith)]
    end;
    (eexists; split; [reflexivity|]; split; [|reflexivity]);
    cbn [app]; repeat f_equal; symmetry; apply byte_of_eq; arith.
Qed.

Lemma decode_step_encoded (c : char) (rest : bytes) :
  match encode_char c with
  | Some bs => decode_step (bs ++ rest) = Char c (length bs) rest
  | None => True
  end.
Proof.
  unfold encode_char, in_range.
  destruct (N.ltb_spec c 0x80);
    [|destruct (N.ltb_spec c 0x800);
      [|destruct (N.ltb_spec c 0x10000);
        [destruct (N.leb_spec 0xD800 c), (N.leb_spec c 0xDFFF); cbn [andb]
        |destruct (N.ltb_spec c 0x110000)]]];
    try exact I;
    cbn [app decode_step length];
    rewrite ?to_N_byte_of by arith; shifts;
    decide_tests; f_equal; arith.
Qed.

(** The decoder reads back the encoding of a code point. *)
Lemma decode_step_complete (c : char) (bs rest : bytes) :
  encode_char c = Some bs ->
  decode_step (bs ++ rest) = Char c (length bs) rest.
Proof.
  intros H. pose proof (decode_step_encoded c rest) as D.
  now rewrite H in D.
Qed.

Lemma decode_step_done (s : bytes) : decode_step s = Done -> s = [].
Proof.
  destruct s as [|b0 s1]; [reflexivity|].
  cbn [decode_step]. decoder_cases; discriminate.
Qed.

(** Strict decoding succeeds only on the encoding of the text it
    returns. *)
Lemma utf8_decode_sound (s : bytes) :
  forall pos t, utf8_decode strict pos s = Ok t -> utf8_encode t = Some s.
Proof.
  induction s as [s E|s c n rest E IH|s n reason rest E IH] using decoder_ind;
    intros pos t; rewrite utf8_decode_step, E.
  - intros H. inversion H. apply decode_step_done in E. now subst.
  - destruct (utf8_decode strict (pos + n) rest) as [t'|] eqn:D;
      [|discriminate].
    intros H. inversion H; subst. cbn [utf8_encode].
    apply decode_step_sound in E. destruct E as (bs & -> & -> & _).
    now rewrite (IH _ _ D).
  - discriminate.
Qed.

(** Decoding, strict or not, reads back the encoding of a text. *)
Lemma utf8_decode_complete (t : str) :
  forall s, utf8_encode t = Some s ->
  forall errors pos, utf8_decode errors pos s = Ok t.
Proof.
  induction t as [|c r IH]; intros s H errors pos.
  - inversion H. reflexivity.
  - cbn [utf8_encode] in H.
    destruct (encode_char c) as [bs|] eqn:Ec; [|discriminate].
    destruct (utf8_encode r) as [rest|] eqn:Er; [|discriminate].
    inversion H; subst. rewrite utf8_decode_step.
    rewrite (decode_step_complete _ _ _ Ec).
    now rewrite (IH _ eq_refl).
Qed.

(** ** The brief loader *)

Lemma read_text_valid fs errors path data text :
  fs path = Some (File data) -> utf8_encode text = Some data ->
  read_text fs errors path = Ok (universal_newlines text).
Proof.
  intros HF HE. unfold read_text, read_bytes. rewrite HF. cbn [bind].
  now rewrite (utf8_decode_complete _ _ HE).
Qed.

Lemma utf8_decode_invalid (data : bytes) :
  (forall text, utf8_encode text <> Some data) ->
  forall pos, exists start stop reason,
    utf8_decode strict pos data = Raise (UnicodeDecodeError start stop reason).
Proof.
  intros H pos. destruct (utf8_decode strict pos data) as [t|e] eqn:D.
  - apply utf8_decode_sound in D. now apply H in D.
  - destruct (utf8_decode_raises _ _ _ _ D) as (a & b & r & ->). eauto.
Qed.

(** C8, amended.  For a path that is absent the brief loader returns the
    empty string, not an error.  For a path that is a file holding the
    UTF-8 encoding of a text it returns that text, line endings read as
    newlines, trimmed of surrounding whitespace. *)
Theorem load_site_brief_contract (fs : filesystem) (path : Path) :
  (fs path = None -> load_site_brief fs path = Ok [])
  /\ (forall data text,
        fs path = Some (File data) -> utf8_encode text = Some data ->
        load_site_brief fs path = Ok (strip (universal_newlines text))).
Proof.
  unfold load_site_brief, exists_. split.
  - intros ->. reflexivity.
  - intros data text HF HE. rewrite (read_text_valid _ _ _ _ _ HF HE).
    now rewrite HF.
Qed.

(** C8 as worded fails: the sample brief [latin1.yaml] exists, its bytes
    are no UTF-8, and the loader raises instead of returning text; a path
    that exists as a directory makes it raise too. *)
Lemma load_site_brief_existing_path_raises :
  exists_ sample_fs [lit "request"; lit "latin1.yaml"] = true
  /\ load_site_brief sample_fs [lit "request"; lit "latin1.yaml"]
     = Raise (UnicodeDecodeError 3 4 "unexpected end of data")
  /\ exists_ sample_fs [lit "source"; lit "sub"] = true
  /\ load_site_brief sample_fs [lit "source"; lit "sub"]
     = Raise IsADirectoryError.
Proof. repeat split. Qed.

(** C9.  The brief loader decodes strictly: on a brief file whose bytes
    are not the UTF-8 encoding of any text it raises a
    [UnicodeDecodeError], and [main], which calls it outside any [try],
    ends with that exception; the plain-text extractor, on the same file,
    returns the text that decoding with [errors="ignore"] leaves. *)
Theorem brief_decoding_is_strict
    (unicode_lower : str -> str) (fs : filesystem) (site : site_packages)
    (path : Path) (data : bytes) :
  fs path = Some (File data) ->
  (forall text, utf8_encode text <> Some data) ->
  (exists start stop reason,
     load_site_brief fs path = Raise (UnicodeDecodeError start stop reason)
     /\ forall resolve exn_str stdout_error now args,
          request_file args = path ->
          exists_ fs (source_dir args) = true ->
          main unicode_lower fs site resolve exn_str stdout_error now args
          = Raise (UnicodeDecodeError start stop reason))
  /\ (exists text,
        utf8_decode ignore 0 data = Ok text
        /\ read_plain_text fs path = Ok (strip (universal_newlines text))).
Proof.
  intros HF HV. split.
  - destruct (utf8_decode_invalid data HV 0%nat) as (a & b & r & D).
    exists a, b, r.
    assert (L : load_site_brief fs path = Raise (UnicodeDecodeError a b r)).
    { unfold load_site_brief, exists_, read_text, read_bytes. rewrite HF.
      cbn [negb bind fmap]. now rewrite D. }
    split; [exact L|].
    intros resolve exn_str stdout_error now args <- HS. unfold main.
    cbv zeta.
    rewrite HS. cbn [negb]. now rewrite L.
  - destruct (utf8_decode_ignore_total data 0%nat) as [text D].
    exists text. split; [exact D|].
    unfold read_plain_text, read_text, read_bytes. rewrite HF.
    cbn [bind fmap]. now rewrite D.
Qed.

Lemma brief_decoding_is_strict_sample :
  sample_fs [lit "request"; lit "latin1.yaml"]
  = Some (File [x63; x61; x66; xe9])
  /\ (forall text, utf8_encode text <> Some [x63; x61; x66; xe9])
  /\ load_site_brief sample_fs [lit "request"; lit "latin1.yaml"]
     = Raise (UnicodeDecodeError 3 4 "unexpected end of data")
  /\ read_plain_text sample_fs [lit "request"; lit "latin1.yaml"]
     = Ok (lit "caf").
Proof.
  assert (V : forall text, utf8_encode text <> Some [x63; x61; x66; xe9]).
  { intros text H.
    apply (fun E => utf8_decode_complete text _ E strict 0%nat) in H.
    discriminate H. }
  split; [reflexivity|]. split; [exact V|].
  destruct (brief_decoding_is_strict sample_lower sample_fs sample_site
              [lit "request"; lit "latin1.yaml"] [x63; x61; x66; xe9]
              eq_refl V) as [_ (text & D & R)].
  split; [reflexivity|].
  rewrite R. injection D as <-. reflexivity.
Defined.

(** ** A sample run *)

(** The sample directory, gathered: the listing is sorted by path, the
    subdirectory is skipped, [skip.csv] has no reader, the extensions
    [.PPTX] and [.MD] match whatever their case, the rejected docx and the
    pdf without a PDF library are recorded as failures. *)
Example gather_sources_sample :
  gather_sources sample_lower sample_fs sample_site [lit "source"]
  = Ok ([ ([lit "source"; lit "README.MD"], lit "ok");
          ([lit "source"; lit "deck.PPTX"],
           lit "Slide 2:" ++ [NL] ++ lit "Title" ++ [NL] ++ lit "Point");
          ([lit "source"; lit "notes.txt"], lit "Hi there");
          ([lit "source"; lit "report.docx"],
           lit "Intro" ++ [NL] ++ lit "Body" ++ [NL] ++ lit "a | b" ++ [NL]
           ++ lit "c") ],
        [ [lit "source"; lit "skip.csv"] ],
        [ ([lit "source"; lit "broken.docx"],
           ThirdPartyError "Package not found");
          ([lit "source"; lit "paper.pdf"],
           RuntimeError pdf_required (Some (ModuleNotFoundError "PyPDF2"))) ]).
Proof. vm_compute. reflexivity. Qed.

(** A file name with a backtick and the text [hello]. *)
Example build_bundle_sample :
  build_bundle sample_now (lit "goal: test")
    [([lit "source"; lit "a`b.txt"], lit "hello")]
  = lit "# Website Request Bundle" ++ [NL]
    ++ lit "Generated: 2026-03-01T09:05:00+00:00" ++ [NL]
    ++ [NL]
    ++ lit "## Site Brief (`request/site-brief.yaml`)" ++ [NL]
    ++ lit "```yaml" ++ [NL]
    ++ lit "goal: test" ++ [NL]
    ++ lit "```" ++ [NL]
    ++ [NL]
    ++ lit "## Source Material" ++ [NL]
    ++ lit "### a" ++ [0x2019] ++ lit "b.txt" ++ [NL]
    ++ lit "```text" ++ [NL]
    ++ lit "hello" ++ [NL]
    ++ lit "```" ++ [NL].
Proof. vm_compute. reflexivity. Qed.

(** A missing source directory ends the run before anything is read. *)
Example main_without_source_dir :
  main sample_lower sample_fs sample_site (fun p => p) (fun _ => [])
    (fun _ => None) sample_now
    {| source_dir := [lit "nowhere"];
       request_file := [lit "request"; lit "site-brief.yaml"];
       output := [lit "build"; lit "context-bundle.md"] |}
  = Raise (SystemExit (lit "Source directory not found: nowhere")).
Proof. vm_compute. reflexivity. Qed.

(** * Part III: further properties of the code *)

(** ** The pdf extractor *)

Lemma pdf_pages_raise (l : list Pdf.Page) (e : exn) :
  fold_left (fun acc page =>
               pages <- acc ;;
               extracted <- lift (Pdf.extract_text page) ;;
               let text := or_empty extracted in
               let text := strip text in
               Ok (if truthy text then pages ++ [text] else pages))
            l (Raise e)
  = Raise e.
Proof. induction l as [|page l IH]; simpl; auto. Qed.

Lemma pdf_pages_extracted (l : list Pdf.Page) (extracted : list (option str)) :
  map Pdf.extract_text l = map Parsed extracted ->
  forall acc,
  fold_left (fun acc page =>
               pages <- acc ;;
               extracted <- lift (Pdf.extract_text page) ;;
               let text := or_empty extracted in
               let text := strip text in
               Ok (if truthy text then pages ++ [text] else pages))
            l (Ok acc)
  = Ok (acc ++ pdf_page_texts extracted).
Proof.
  revert extracted. induction l as [|page l IH]; intros [|x xs] H acc;
    try discriminate.
  - simpl. now rewrite app_nil_r.
  - cbn [map] in H. injection H as Hx Hxs.
    cbn [fold_left bind]. rewrite Hx. cbn [lift bind].
    rewrite (IH _ Hxs). unfold pdf_page_texts. cbn [map filter].
    destruct (truthy (strip (or_empty x))); auto.
    now rewrite <- app_assoc.
Qed.

Lemma read_pdf_with (fs : filesystem) (site : site_packages)
    (PdfReader : bytes -> parsed Pdf.PdfReader) (p : Path) (data : bytes)
    (reader : Pdf.PdfReader) :
  pdf_reader_cls site = Some PdfReader ->
  fs p = Some (File data) ->
  PdfReader data = Parsed reader ->
  read_pdf fs site p
  = (pages <-
       fold_left (fun acc page =>
                    pages <- acc ;;
                    extracted <- lift (Pdf.extract_text page) ;;
                    let text := or_empty extracted in
                    let text := strip text in
                    Ok (if truthy text then pages ++ [text] else pages))
                 (Pdf.pages reader) (Ok []) ;;
     Ok (join [NL; NL] pages)).
Proof.
  unfold pdf_reader_cls, read_pdf, construct, read_bytes.
  intros HC HF HP.
  destruct (pypdf_PdfReader site) as [cls|].
  - injection HC as ->. cbn [bind]. rewrite HF. cbn [bind]. now rewrite HP.
  - rewrite HC. cbn [bind]. rewrite HF. cbn [bind]. now rewrite HP.
Qed.

(** X1.  With a PDF library installed ([pypdf] if it can be imported, else
    [PyPDF2]: the second is not consulted when the first is there), a file
    the library parses and whose pages all extract gives the trimmed texts
    of the pages that have text, in page order, separated by one blank
    line; a page whose text is [None], empty or blank is left out. *)
Theorem read_pdf_output
    (fs : filesystem) (site : site_packages)
    (PdfReader : bytes -> parsed Pdf.PdfReader)
    (file_path : Path) (data : bytes) (reader : Pdf.PdfReader)
    (extracted : list (option str)) :
  pdf_reader_cls site = Some PdfReader ->
  fs file_path = Some (File data) ->
  PdfReader data = Parsed reader ->
  map Pdf.extract_text (Pdf.pages reader) = map Parsed extracted ->
  read_pdf fs site file_path
  = Ok (join [NL; NL] (pdf_page_texts extracted))
  /\ (forall other,
        pypdf_PdfReader site = Some PdfReader ->
        read_pdf fs
          {| docx_Document := docx_Document site;
             pypdf_PdfReader := pypdf_PdfReader site;
             PyPDF2_PdfReader := other;
             pptx_Presentation := pptx_Presentation site |} file_path
        = read_pdf fs site file_path).
Proof.
  intros HC HF HP HE.
  assert (R : read_pdf fs site file_path
              = Ok (join [NL; NL] (pdf_page_texts extracted))).
  { rewrite (read_pdf_with _ _ _ _ _ _ HC HF HP).
    now rewrite (pdf_pages_extracted _ _ HE). }
  split; [exact R|].
  intros other H1. rewrite R.
  assert (HC' : pdf_reader_cls
                  {| docx_Document := docx_Document site;
                     pypdf_PdfReader := pypdf_PdfReader site;
                     PyPDF2_PdfReader := other;
                     pptx_Presentation := pptx_Presentation site |}
                = Some PdfReader).
  { unfold pdf_reader_cls. cbn [pypdf_PdfReader]. now rewrite H1. }
  rewrite (read_pdf_with _ _ _ _ _ _ HC' HF HP).
  now rewrite (pdf_pages_extracted _ _ HE).
Qed.

Lemma read_pdf_output_sample :
  pdf_reader_cls sample_site_pdf = PyPDF2_PdfReader sample_site_pdf
  /\ sample_fs_pdf [lit "paper.pdf"] = Some (File (list_byte_of_string "%PDF"))
  /\ read_pdf sample_fs_pdf sample_site_pdf [lit "paper.pdf"]
     = Ok (lit "Page one" ++ [NL; NL] ++ lit "Page two").
Proof.
  split; [reflexivity|]. split; [reflexivity|].
  exact (proj1 (read_pdf_output sample_fs_pdf sample_site_pdf _
                  [lit "paper.pdf"] _ sample_pdf
                  [Some (lit " Page one "); None; Some (lit "  ");
                   Some (lit "Page two")]
                  eq_refl eq_refl eq_refl eq_refl)).
Defined.

(** X2.  When a page fails to extract, the pdf extractor fails with the
    exception of the first such page, whatever the pages before it gave
    and whatever the pages after it would give: no partial text is
    returned. *)
Theorem read_pdf_page_failure
    (fs : filesystem) (site : site_packages)
    (PdfReader : bytes -> parsed Pdf.PdfReader)
    (file_path : Path) (data : bytes) (reader : Pdf.PdfReader)
    (before : list Pdf.Page) (extracted : list (option str))
    (page : Pdf.Page) (detail : string) (after : list Pdf.Page) :
  pdf_reader_cls site = Some PdfReader ->
  fs file_path = Some (File data) ->
  PdfReader data = Parsed reader ->
  Pdf.pages reader = before ++ page :: after ->
  map Pdf.extract_text before = map Parsed extracted ->
  Pdf.extract_text page = Failed detail ->
  read_pdf fs site file_path = Raise (ThirdPartyError detail).
Proof.
  intros HC HF HP HS HB HD.
  rewrite (read_pdf_with _ _ _ _ _ _ HC HF HP), HS.
  rewrite fold_left_app, (pdf_pages_extracted _ _ HB).
  cbn [fold_left bind]. rewrite HD. cbn [lift bind].
  now rewrite pdf_pages_raise.
Qed.

Lemma read_pdf_page_failure_sample :
  sample_fs_pdf [lit "damaged.pdf"] = Some (File (list_byte_of_string "%"))
  /\ Pdf.pages sample_pdf_damaged
     = [ {| Pdf.extract_text := Parsed (Some (lit "Page one")) |} ]
       ++ {| Pdf.extract_text := Failed "bad content stream" |}
       :: [ {| Pdf.extract_text := Failed "never reached" |} ]
  /\ read_pdf sample_fs_pdf sample_site_pdf [lit "damaged.pdf"]
     = Raise (ThirdPartyError "bad content stream").
Proof.
  split; [reflexivity|]. split; [reflexivity|].
  exact (read_pdf_page_failure sample_fs_pdf sample_site_pdf _
           [lit "damaged.pdf"] _ sample_pdf_damaged
           [ {| Pdf.extract_text := Parsed (Some (lit "Page one")) |} ]
           [Some (lit "Page one")]
           {| Pdf.extract_text := Failed "bad content stream" |}
           "bad content stream"
           [ {| Pdf.extract_text := Failed "never reached" |} ]
           eq_refl eq_refl eq_refl eq_refl eq_refl eq_refl).
Defined.

(** ** The plain-text extractor *)

Lemma utf8_decode_encoded_prefix (t : str) :
  forall s rest errors pos,
    utf8_encode t = Some s ->
    utf8_decode errors pos (s ++ rest)
    = fmap (app t) (utf8_decode errors (pos + length s) rest).
Proof.
  induction t as [|c r IH]; intros s rest errors pos H.
  - injection H as <-. cbn [app length]. rewrite Nat.add_0_r.
    destruct (utf8_decode errors pos rest); reflexivity.
  - cbn [utf8_encode] in H.
    destruct (encode_char c) as [bs|] eqn:Ec; [|discriminate].
    destruct (utf8_encode r) as [s'|] eqn:Er; [|discriminate].
    injection H as <-. rewrite <- app_assoc, utf8_decode_step.
    rewrite (decode_step_complete _ _ _ Ec).
    rewrite (IH _ _ _ _ eq_refl). rewrite length_app, Nat.add_assoc.
    destruct (utf8_decode errors (pos + length bs + length s') rest);
      reflexivity.
Qed.

Lemma utf8_decode_stray (b : byte) (rest : bytes) (pos : nat) :
  invalid_start b = true ->
  utf8_decode ignore pos (b :: rest) = utf8_decode ignore (pos + 1) rest.
Proof.
  unfold invalid_start. cbv zeta. intros H.
  rewrite utf8_decode_step. cbn [decode_step].
  pose proof (Byte.to_N_bounded b).
  decide_tests; reflexivity.
Qed.

Lemma utf8_decode_segments (segs : list segment) :
  strays_invalid segs = true ->
  forall data pos,
    segments_bytes segs = Some data ->
    utf8_decode ignore pos data = Ok (segments_text segs).
Proof.
  induction segs as [|[t|b] segs IH]; intros HS data pos HB;
    cbn [segments_bytes segments_text strays_invalid forallb] in *.
  - injection HB as <-. reflexivity.
  - destruct (utf8_encode t) as [a|] eqn:Et; [|discriminate].
    destruct (segments_bytes segs) as [r|] eqn:Er; [|discriminate].
    injection HB as <-.
    rewrite (utf8_decode_encoded_prefix _ _ _ _ _ Et).
    now rewrite (IH HS _ _ eq_refl).
  - apply andb_true_iff in HS. destruct HS as [Hb HS].
    destruct (segments_bytes segs) as [r|] eqn:Er; [|discriminate].
    injection HB as <-.
    rewrite (utf8_decode_stray _ _ _ Hb).
    now apply IH.
Qed.

(** X3.  On a regular file the plain-text extractor never fails, whatever
    the bytes: it returns a text, and the text has no whitespace at either
    end. *)
Theorem read_plain_text_never_fails
    (fs : filesystem) (file_path : Path) (data : bytes) :
  fs file_path = Some (File data) ->
  exists text,
    read_plain_text fs file_path = Ok text
    /\ no_leading_space text = true
    /\ no_trailing_space text = true.
Proof.
  intros HF. destruct (utf8_decode_ignore_total data 0%nat) as [t D].
  exists (strip (universal_newlines t)). split.
  - unfold read_plain_text, read_text, read_bytes. rewrite HF.
    cbn [bind fmap]. now rewrite D.
  - split; [apply strip_no_leading|apply strip_no_trailing].
Qed.

Lemma read_plain_text_never_fails_sample :
  sample_fs [lit "source"; lit "README.MD"]
  = Some (File [xff; x6f; x6b; x0d; x0a])
  /\ exists text,
       read_plain_text sample_fs [lit "source"; lit "README.MD"] = Ok text
       /\ no_leading_space text = true
       /\ no_trailing_space text = true.
Proof.
  split; [reflexivity|].
  exact (read_plain_text_never_fails sample_fs
           [lit "source"; lit "README.MD"] _ eq_refl).
Defined.

(** X4.  The plain-text extractor reads a file made of stretches of UTF-8
    text and of stray bytes that cannot start a character (continuation
    bytes, [C0], [C1], [F5] and above) as the stretches of text put
    together, the stray bytes dropped; line endings are read as newlines
    and the result is trimmed.  In particular a file that is the UTF-8
    encoding of a text gives that text. *)
Theorem read_plain_text_drops_stray_bytes
    (fs : filesystem) (file_path : Path) (data : bytes)
    (segs : list segment) :
  fs file_path = Some (File data) ->
  segments_bytes segs = Some data ->
  strays_invalid segs = true ->
  read_plain_text fs file_path
  = Ok (strip (universal_newlines (segments_text segs))).
Proof.
  intros HF HB HS.
  unfold read_plain_text, read_text, read_bytes. rewrite HF.
  cbn [bind fmap]. now rewrite (utf8_decode_segments _ HS _ _ HB).
Qed.

Lemma read_plain_text_drops_stray_bytes_sample :
  sample_fs [lit "source"; lit "README.MD"]
  = Some (File [xff; x6f; x6b; x0d; x0a])
  /\ segments_bytes [Stray xff; Text [0x6F; 0x6B; 0x0D; 0x0A]]
     = Some [xff; x6f; x6b; x0d; x0a]
  /\ read_plain_text sample_fs [lit "source"; lit "README.MD"]
     = Ok (lit "ok").
Proof.
  split; [reflexivity|]. split; [reflexivity|].
  exact (read_plain_text_drops_stray_bytes sample_fs
           [lit "source"; lit "README.MD"] _
           [Stray xff; Text [0x6F; 0x6B; 0x0D; 0x0A]]
           eq_refl eq_refl eq_refl).
Defined.

(** ** The order of the results *)

Section Lex.

Variable A : Type.
Variables ltb eqb : A -> A -> bool.
Hypothesis eqb_eq : forall x y, eqb x y = true <-> x = y.
Hypothesis ltb_irrefl : forall x, ltb x x = false.
Hypothesis ltb_trans :
  forall x y z, ltb x y = true -> ltb y z = true -> ltb x z = true.
Hypothesis ltb_total :
  forall x y, ltb x y = false -> ltb y x = false -> x = y.

Lemma lex_irrefl (a : list A) : lex_ltb ltb eqb a a = false.
Proof.
  induction a as [|x a IH]; simpl; auto.
  now rewrite ltb_irrefl, IH, andb_false_r.
Qed.

Lemma lex_trans (a : list A) :
  forall b c, lex_ltb ltb eqb a b = true -> lex_ltb ltb eqb b c = true ->
              lex_ltb ltb eqb a c = true.
Proof.
  induction a as [|x a IH]; intros [|y b] [|z c]; simpl; auto;
    try discriminate.
  rewrite !orb_true_iff, !andb_true_iff, !eqb_eq.
  intros [H1|[-> H1]] [H2|[-> H2]]; eauto.
Qed.

Lemma lex_total (a : list A) :
  forall b, lex_ltb ltb eqb a b = false -> lex_ltb ltb eqb b a = false ->
            a = b.
Proof.
  induction a as [|x a IH]; intros [|y b]; simpl; auto; try discriminate.
  rewrite !orb_false_iff. intros [H1 H2] [H3 H4].
  assert (x = y) by auto. subst y.
  assert (E : eqb x x = true) by now apply eqb_eq.
  rewrite E in H2, H4. simpl in H2, H4. f_equal. auto.
Qed.

End Lex.

Lemma str_ltb_lex (a : str) : forall b, str_ltb a b = lex_ltb N.ltb N.eqb a b.
Proof.
  induction a as [|x a IH]; intros [|y b]; simpl; auto. now rewrite IH.
Qed.

Lemma path_ltb_lex (p : Path) :
  forall q, path_ltb p q = lex_ltb str_ltb str_eqb p q.
Proof.
  induction p as [|x p IH]; intros [|y q]; simpl; auto. now rewrite IH.
Qed.

Lemma str_ltb_irrefl (a : str) : str_ltb a a = false.
Proof. rewrite str_ltb_lex. apply lex_irrefl. apply N.ltb_irrefl. Qed.

Lemma str_ltb_trans (a b c : str) :
  str_ltb a b = true -> str_ltb b c = true -> str_ltb a c = true.
Proof.
  rewrite !str_ltb_lex. apply lex_trans.
  - apply N.eqb_eq.
  - intros x y z. rewrite !N.ltb_lt. lia.
Qed.

Lemma str_ltb_total (a b : str) :
  str_ltb a b = false -> str_ltb b a = false -> a = b.
Proof.
  rewrite !str_ltb_lex. apply lex_total.
  - apply N.eqb_eq.
  - intros x y. rewrite !N.ltb_ge. lia.
Qed.

Lemma path_ltb_irrefl (p : Path) : path_ltb p p = false.
Proof. rewrite path_ltb_lex. apply lex_irrefl. apply str_ltb_irrefl. Qed.

Lemma path_ltb_trans (p q r : Path) :
  path_ltb p q = true -> path_ltb q r = true -> path_ltb p r = true.
Proof.
  rewrite !path_ltb_lex. apply lex_trans.
  - apply str_eqb_eq.
  - apply str_ltb_trans.
Qed.

Lemma path_ltb_total (p q : Path) :
  path_ltb p q = false -> path_ltb q p = false -> p = q.
Proof.
  rewrite !path_ltb_lex. apply lex_total.
  - apply str_eqb_eq.
  - apply str_ltb_total.
Qed.

Lemma path_ltb_asym (p q : Path) :
  path_ltb p q = true -> path_ltb q p = false.
Proof.
  intros H. destruct (path_ltb q p) eqn:E; auto.
  pose proof (path_ltb_trans _ _ _ H E) as T.
  now rewrite path_ltb_irrefl in T.
Qed.

(** [p <= q] and [q <= r] give [p <= r], where [p <= q] is "not [q < p]". *)
Lemma path_le_trans (p q r : Path) :
  path_ltb q p = false -> path_ltb r q = false -> path_ltb r p = false.
Proof.
  intros H1 H2. destruct (path_ltb r p) eqn:E; auto.
  destruct (path_ltb q r) eqn:F.
  - now rewrite (path_ltb_trans _ _ _ F E) in H1.
  - rewrite (path_ltb_total _ _ F H2) in H1. congruence.
Qed.

Lemma ascending_cons (p : Path) (l : list Path) :
  ascending (p :: l) = true
  <-> (forall q, In q l -> path_ltb q p = false) /\ ascending l = true.
Proof.
  cbn [ascending]. rewrite andb_true_iff, forallb_forall. split.
  - intros [H1 H2]. split; auto. intros q Hq. now apply negb_true_iff, H1.
  - intros [H1 H2]. split; auto. intros q Hq. now apply negb_true_iff, H1.
Qed.

Lemma insert_sorted_in (p q : Path) (l : list Path) :
  In q (insert_sorted p l) <-> q = p \/ In q l.
Proof.
  induction l as [|x l IH]; simpl; [intuition|].
  destruct (path_ltb x p); simpl; rewrite ?IH; intuition.
Qed.

Lemma insert_sorted_ascending (p : Path) (l : list Path) :
  ascending l = true -> ascending (insert_sorted p l) = true.
Proof.
  induction l as [|x l IH]; intros H; [reflexivity|].
  apply ascending_cons in H. destruct H as [Hx Hl].
  cbn [insert_sorted]. destruct (path_ltb x p) eqn:E.
  - apply ascending_cons. split; [|auto].
    intros q Hq. apply insert_sorted_in in Hq. destruct Hq as [->|Hq]; auto.
    now apply path_ltb_asym.
  - apply ascending_cons. split.
    + intros q [<-|Hq]; auto. apply (path_le_trans _ x); auto.
    + apply ascending_cons. auto.
Qed.

Lemma sorted_ascending (l : list Path) : ascending (sorted l) = true.
Proof.
  induction l as [|p l IH]; [reflexivity|].
  now apply insert_sorted_ascending.
Qed.

Lemma ascending_filter (f : Path -> bool) (l : list Path) :
  ascending l = true -> ascending (filter f l) = true.
Proof.
  induction l as [|p l IH]; intros H; [reflexivity|].
  apply ascending_cons in H. destruct H as [Hp Hl]. cbn [filter].
  destruct (f p); auto. apply ascending_cons. split; auto.
  intros q Hq. apply filter_In in Hq. now apply Hp.
Qed.

(** Two ascending lists with the same members are the same list. *)
Lemma ascending_unique (l : list Path) :
  forall l', ascending l = true -> ascending l' = true ->
             Permutation l l' -> l = l'.
Proof.
  induction l as [|x l IH]; intros [|y l'] Hl Hl' P.
  - reflexivity.
  - now apply Permutation_nil in P.
  - now apply Permutation_sym, Permutation_nil in P.
  - apply ascending_cons in Hl, Hl'.
    destruct Hl as [Hx Hl], Hl' as [Hy Hl'].
    assert (x = y).
    { assert (Iy : In y (x :: l))
        by (apply (Permutation_in _ (Permutation_sym P)); now left).
      assert (Ix : In x (y :: l')) by (apply (Permutation_in _ P); now left).
      destruct Iy as [|Iy]; auto. destruct Ix as [|Ix]; auto.
      apply path_ltb_total; auto. }
    subst y. f_equal. apply IH; auto. now apply Permutation_cons_inv in P.
Qed.

Section BucketsAsFilters.

Variable unicode_lower : str -> str.
Variable fs : filesystem.
Variable site : site_packages.

Lemma gathered_paths_filter (l : list Path) :
  map fst (gathered_of unicode_lower fs site l)
  = filter (fun p => match outcome_of unicode_lower fs site p with
                     | Extracted _ => true
                     | _ => false
                     end) l.
Proof.
  unfold gathered_of. induction l as [|p l IH]; [reflexivity|].
  cbn [flat_map filter]. rewrite map_app, IH.
  now destruct (outcome_of unicode_lower fs site p).
Qed.

Lemma unsupported_filter (l : list Path) :
  unsupported_of unicode_lower fs site l
  = filter (fun p => match outcome_of unicode_lower fs site p with
                     | NoReader => true
                     | _ => false
                     end) l.
Proof.
  unfold unsupported_of. induction l as [|p l IH]; [reflexivity|].
  cbn [flat_map filter]. rewrite IH.
  now destruct (outcome_of unicode_lower fs site p).
Qed.

Lemma failed_paths_filter (l : list Path) :
  map fst (failures_of unicode_lower fs site l)
  = filter (fun p => match outcome_of unicode_lower fs site p with
                     | Raised _ => true
                     | _ => false
                     end) l.
Proof.
  unfold failures_of. induction l as [|p l IH]; [reflexivity|].
  cbn [flat_map filter]. rewrite map_app, IH.
  now destruct (outcome_of unicode_lower fs site p).
Qed.

End BucketsAsFilters.

(** X5.  Each of the three collections [gather_sources] returns is in
    ascending path order, however the operating system lists the
    directory. *)
Theorem gather_sources_sorted
    (unicode_lower : str -> str) (fs : filesystem) (site : site_packages)
    (source_dir : Path) :
  exists gathered unsupported failures,
    gather_sources unicode_lower fs site source_dir
    = Ok (gathered, unsupported, failures)
    /\ ascending (map fst gathered) = true
    /\ ascending unsupported = true
    /\ ascending (map fst failures) = true.
Proof.
  rewrite gather_sources_eq. cbv zeta. do 3 eexists.
  split; [reflexivity|].
  rewrite gathered_paths_filter, unsupported_filter, failed_paths_filter.
  repeat split; apply ascending_filter, sorted_ascending.
Qed.

Lemma read_bytes_ext (fs fs' : filesystem) (p : Path) :
  fs' p = fs p -> read_bytes fs' p = read_bytes fs p.
Proof. unfold read_bytes. now intros ->. Qed.

Lemma gather_step_ext (unicode_lower : str -> str) (fs fs' : filesystem)
    (site : site_packages) (acc : result buckets) (p : Path) :
  fs' p = fs p ->
  gather_step unicode_lower fs' site acc p
  = gather_step unicode_lower fs site acc p.
Proof.
  intros H. pose proof (read_bytes_ext _ _ _ H) as HB.
  unfold gather_step, is_dir. rewrite H.
  destruct acc as [[[g u] f]|e]; [|reflexivity]. cbn [bind].
  destruct (fs p) as [[|]|]; try reflexivity;
    unfold READERS; cbn [dict_get];
    repeat match goal with
           | |- context [if str_eqb ?k ?key then _ else _] =>
             destruct (str_eqb k key)
           end;
    try reflexivity;
    unfold read_docx, read_pdf, read_pptx, read_plain_text, read_text,
      construct; rewrite HB; reflexivity.
Qed.

Lemma gather_fold_ext (unicode_lower : str -> str) (fs fs' : filesystem)
    (site : site_packages) (l : list Path) :
  (forall p, In p l -> fs' p = fs p) ->
  forall acc,
    fold_left (gather_step unicode_lower fs' site) l acc
    = fold_left (gather_step unicode_lower fs site) l acc.
Proof.
  induction l as [|p l IH]; intros H acc; [reflexivity|].
  cbn [fold_left]. rewrite (gather_step_ext _ fs fs') by (apply H; now left).
  apply IH. intros q Hq. apply H. now right.
Qed.

(** X6.  The result of [gather_sources] does not depend on the order in
    which the directory's entries are listed: two file systems that list
    the same entries for the directory, in any order, and hold the same
    thing at each entry give the same three collections. *)
Theorem gather_sources_listing_order
    (unicode_lower : str -> str) (fs fs' : filesystem) (site : site_packages)
    (source_dir : Path) :
  Permutation (glob_star fs source_dir) (glob_star fs' source_dir) ->
  (forall p, In p (glob_star fs source_dir) -> fs' p = fs p) ->
  gather_sources unicode_lower fs' site source_dir
  = gather_sources unicode_lower fs site source_dir.
Proof.
  intros P H. unfold gather_sources.
  assert (E : sorted (glob_star fs' source_dir)
              = sorted (glob_star fs source_dir)).
  { apply ascending_unique; try apply sorted_ascending.
    rewrite !sorted_perm. now apply Permutation_sym. }
  rewrite E. apply gather_fold_ext.
  intros p Hp. apply H. apply (Permutation_in _ (sorted_perm _)), Hp.
Qed.

Lemma gather_sources_listing_order_sample :
  Permutation (glob_star sample_fs_listed_one [lit "d"])
              (glob_star sample_fs_listed_other [lit "d"])
  /\ gather_sources sample_lower sample_fs_listed_other sample_site [lit "d"]
     = gather_sources sample_lower sample_fs_listed_one sample_site [lit "d"]
  /\ gather_sources sample_lower sample_fs_listed_one sample_site [lit "d"]
     = Ok ([ ([lit "d"; lit "a.txt"], lit "A");
             ([lit "d"; lit "b.txt"], lit "B") ],
           [ [lit "d"; lit "c.csv"] ], []).
Proof.
  assert (P : Permutation (glob_star sample_fs_listed_one [lit "d"])
                          (glob_star sample_fs_listed_other [lit "d"])).
  { apply (Permutation_cons_app
             [[lit "d"; lit "a.txt"]; [lit "d"; lit "c.csv"]] []).
    reflexivity. }
  split; [exact P|]. split; [|reflexivity].
  apply (gather_sources_listing_order sample_lower sample_fs_listed_one
           sample_fs_listed_other sample_site [lit "d"] P).
  intros p [<-|[<-|[<-|[]]]]; reflexivity.
Defined.

(** ** The whole bundle *)

(** X8.  The text of the bundle, whole: the title, the timestamp line, an
    empty line, the brief (the request text between [```yaml] and [```]
    under its heading, or the notice that none was found when the text is
    empty), an empty line, the Source Material heading, and the entries,
    or the notice that there are none when the list is empty.  The text
    ends with one newline and has no other whitespace at either end. *)
Theorem build_bundle_text
    (now : datetime) (request_text : str) (sources : list (Path * str)) :
  build_bundle now request_text sources
  = lit "# Website Request Bundle" ++ [NL]
    ++ lit "Generated: " ++ isoformat now ++ [NL]
    ++ [NL]
    ++ (if is_empty request_text
        then lit "## Site Brief" ++ [NL]
             ++ lit "_No site brief found. Fill out `request/site-brief.yaml` to capture your requirements._"
             ++ [NL]
        else lit "## Site Brief (`request/site-brief.yaml`)" ++ [NL]
             ++ lit "```yaml" ++ [NL]
             ++ request_text ++ [NL]
             ++ lit "```" ++ [NL])
    ++ [NL]
    ++ lit "## Source Material" ++ [NL]
    ++ match sources with
       | [] =>
         lit "_No supported source files discovered in the `source/` directory._"
         ++ [NL]
       | _ :: _ => join [NL] (map entry_block sources)
       end
  /\ exists body,
       build_bundle now request_text sources = body ++ [NL]
       /\ no_leading_space body = true
       /\ no_trailing_space body = true.
Proof.
  split.
  - rewrite build_bundle_layout. unfold brief_section, brief_lines, truthy,
      source_material, unlines.
    destruct (is_empty request_text); cbn [negb flat_map];
      rewrite <- ?app_assoc; reflexivity.
  - rewrite bundle_lines. eexists. split; [reflexivity|].
    split; [apply strip_no_leading|apply strip_no_trailing].
Qed.

(** ** Blank extractions *)

Lemma startswith_app (x b : str) : startswith x (x ++ b) = true.
Proof.
  induction x as [|c x IH]; [now destruct b|].
  cbn [app startswith]. now rewrite N.eqb_refl, IH.
Qed.

Lemma contains_middle (x a b : str) : contains x (a ++ x ++ b) = true.
Proof.
  induction a as [|c a IH].
  - cbn [app]. destruct (x ++ b) eqn:E; cbn [contains]; rewrite <- ?E;
      now rewrite startswith_app.
  - cbn [app contains]. rewrite IH. apply orb_true_r.
Qed.

Lemma join_holds (sep x : str) (l : list str) :
  In x l -> exists a b, join sep l = a ++ x ++ b.
Proof.
  induction l as [|y l IH]; intros H; [contradiction|].
  destruct l as [|z l].
  - destruct H as [->|[]]. exists [], []. cbn [join app].
    now rewrite app_nil_r.
  - rewrite join_cons by discriminate. destruct H as [->|H].
    + exists [], (sep ++ join sep (z :: l)). reflexivity.
    + destruct (IH H) as (a & b & ->).
      exists (y ++ sep ++ a), b. now rewrite <- !app_assoc.
Qed.

Lemma lstrip_blank (s : str) : forallb isspace s = true -> lstrip s = [].
Proof.
  induction s as [|c r IH]; [reflexivity|]. cbn [forallb lstrip].
  intros H. apply andb_true_iff in H. destruct H as [-> H]. auto.
Qed.

Lemma strip_blank (s : str) : forallb isspace s = true -> strip s = [].
Proof. intros H. unfold strip. now rewrite lstrip_blank. Qed.

(** X9.  A supported file whose extractor returns nothing but whitespace
    still counts as gathered, with empty text, and the bundle shows it:
    its heading followed by the notice that no text was found. *)
Theorem blank_extraction_in_bundle
    (unicode_lower : str -> str) (fs : filesystem) (site : site_packages)
    (source_dir : Path) (p : Path) (reader : Path -> result str) (raw : str)
    (now : datetime) (request_text : str) :
  In p (files_of fs source_dir) ->
  dict_get (READERS fs site) (lower unicode_lower (suffix p)) = Some reader ->
  reader p = Ok raw ->
  forallb isspace raw = true ->
  exists gathered unsupported failures,
    gather_sources unicode_lower fs site source_dir
    = Ok (gathered, unsupported, failures)
    /\ In (p, []) gathered
    /\ contains (lit "### " ++ sanitize_heading (name p) ++ [NL]
                 ++ lit "_No extractable text content found._" ++ [NL])
                (build_bundle now request_text gathered) = true.
Proof.
  intros Hp R Q B. rewrite gather_sources_eq. cbv zeta.
  do 3 eexists. split; [reflexivity|].
  apply files_of_sorted in Hp. destruct Hp as [Hp Hd].
  assert (I : In (p, []) (gathered_of unicode_lower fs site
                            (sorted (glob_star fs source_dir)))).
  { apply in_gathered. split; auto.
    unfold outcome_of. now rewrite Hd, R, Q, (strip_blank _ B). }
  split; [exact I|].
  rewrite build_bundle_layout. unfold source_material.
  destruct (gathered_of unicode_lower fs site
              (sorted (glob_star fs source_dir))) as [|e g] eqn:E;
    [contradiction|].
  rewrite <- E in *.
  destruct (join_holds [NL] (entry_block (p, [])) _ (in_map entry_block _ _ I))
    as (a & b & ->).
  change (lit "### " ++ sanitize_heading (name p) ++ [NL]
          ++ lit "_No extractable text content found._" ++ [NL])
    with (entry_block (p, [])).
  generalize (entry_block (p, [])) as x. intros x.
  rewrite !app_assoc. rewrite <- (app_assoc _ x b).
  apply contains_middle.
Qed.

Lemma blank_extraction_in_bundle_sample :
  In [lit "d"; lit "blank.txt"] (files_of sample_fs_blank [lit "d"])
  /\ read_plain_text sample_fs_blank [lit "d"; lit "blank.txt"] = Ok []
  /\ exists gathered unsupported failures,
       gather_sources sample_lower sample_fs_blank sample_site [lit "d"]
       = Ok (gathered, unsupported, failures)
       /\ In ([lit "d"; lit "blank.txt"], []) gathered
       /\ contains (lit "### " ++ sanitize_heading (lit "blank.txt") ++ [NL]
                    ++ lit "_No extractable text content found._" ++ [NL])
                   (build_bundle sample_now [] gathered) = true.
Proof.
  assert (I : In [lit "d"; lit "blank.txt"]
                 (files_of sample_fs_blank [lit "d"]))
    by (left; reflexivity).
  split; [exact I|]. split; [reflexivity|].
  exact (blank_extraction_in_bundle sample_lower sample_fs_blank sample_site
           [lit "d"] [lit "d"; lit "blank.txt"]
           (read_plain_text sample_fs_blank) [] sample_now []
           I eq_refl eq_refl eq_refl).
Defined.

(** ** Headings *)

(** X10.  [sanitize_heading] keeps the length of a name, changes nothing
    in a name without a backtick, leaves no backtick, and applying it
    again changes nothing more. *)
Theorem sanitize_heading_properties (text : str) :
  length (sanitize_heading text) = length text
  /\ (forallb (fun c => negb (c =? 0x60)) text = true ->
      sanitize_heading text = text)
  /\ forallb (fun c => negb (c =? 0x60)) (sanitize_heading text) = true
  /\ sanitize_heading (sanitize_heading text) = sanitize_heading text.
Proof.
  assert (K : forall s, forallb (fun c => negb (c =? 0x60)) s = true ->
                        sanitize_heading s = s).
  { intros s. rewrite sanitize_heading_map.
    induction s as [|c r IH]; [reflexivity|]. cbn [forallb map].
    intros H. apply andb_true_iff in H. destruct H as [Hc Hr].
    apply negb_true_iff in Hc. rewrite Hc. now rewrite IH. }
  split; [|split; [|split]].
  - rewrite sanitize_heading_map. apply length_map.
  - apply K.
  - apply sanitize_heading_no_backtick.
  - apply K, sanitize_heading_no_backtick.
Qed.

(** ** Names and extensions *)

Lemma outcome_without_suffix
    (unicode_lower : str -> str) (fs : filesystem) (site : site_packages)
    (p : Path) :
  is_dir fs p = false -> suffix p = [] ->
  outcome_of unicode_lower fs site p = NoReader.
Proof. intros Hd Hs. unfold outcome_of. now rewrite Hd, Hs. Qed.

(** X11.  A file whose name has no dot, or whose only dot is its first
    character (a hidden file such as [.md]), or whose name ends with a
    dot, has no extension to match and ends among the unsupported paths. *)
Theorem names_without_extension_unsupported
    (unicode_lower : str -> str) (fs : filesystem) (site : site_packages)
    (source_dir : Path) (nm : str) :
  In (joinpath source_dir nm) (files_of fs source_dir) ->
  no_dot nm = true
  \/ (exists rest, nm = DOT :: rest /\ no_dot rest = true)
  \/ (exists stem, nm = stem ++ [DOT]) ->
  exists gathered unsupported failures,
    gather_sources unicode_lower fs site source_dir
    = Ok (gathered, unsupported, failures)
    /\ In (joinpath source_dir nm) unsupported
    /\ ~ In (joinpath source_dir nm) (map fst gathered)
    /\ ~ In (joinpath source_dir nm) (map fst failures).
Proof.
  intros Hp Hn. rewrite gather_sources_eq. cbv zeta.
  do 3 eexists. split; [reflexivity|].
  apply files_of_sorted in Hp. destruct Hp as [Hp Hd].
  pose proof (outcome_without_suffix unicode_lower fs site _ Hd
                (suffix_none source_dir nm Hn)) as O.
  rewrite in_unsupported, in_gathered_paths, in_failed_paths.
  rewrite O. split; [auto|]. split; intros [_ [x H]]; discriminate.
Qed.

Lemma names_without_extension_unsupported_sample :
  In (joinpath [lit "d"] (lit ".md")) (files_of sample_fs_names [lit "d"])
  /\ exists gathered unsupported failures,
       gather_sources sample_lower sample_fs_names sample_site [lit "d"]
       = Ok (gathered, unsupported, failures)
       /\ In (joinpath [lit "d"] (lit ".md")) unsupported
       /\ ~ In (joinpath [lit "d"] (lit ".md")) (map fst gathered)
       /\ ~ In (joinpath [lit "d"] (lit ".md")) (map fst failures).
Proof.
  assert (I : In (joinpath [lit "d"] (lit ".md"))
                 (files_of sample_fs_names [lit "d"]))
    by (right; left; reflexivity).
  split; [exact I|].
  exact (names_without_extension_unsupported sample_lower sample_fs_names
           sample_site [lit "d"] (lit ".md") I
           (or_intror (or_introl (ex_intro _ (lit "md")
                                    (conj eq_refl eq_refl))))).
Defined.

(** X12.  For a file named [stem.ext], with a non-empty stem that may
    itself contain dots and an ASCII extension without a dot, only [ext]
    counts and its case does not: the file is handed to a reader exactly
    when [.ext], lower-cased, is one of the five recognized extensions,
    and is unsupported otherwise. *)
Theorem last_extension_decides
    (unicode_lower : str -> str) (fs : filesystem) (site : site_packages)
    (source_dir : Path) (stem ext : str) :
  In (joinpath source_dir (stem ++ DOT :: ext)) (files_of fs source_dir) ->
  stem <> [] -> ext <> [] -> no_dot ext = true ->
  forallb is_ascii ext = true ->
  exists gathered unsupported failures,
    gather_sources unicode_lower fs site source_dir
    = Ok (gathered, unsupported, failures)
    /\ (In (DOT :: map ascii_lower ext) recognized ->
          ~ In (joinpath source_dir (stem ++ DOT :: ext)) unsupported
          /\ (In (joinpath source_dir (stem ++ DOT :: ext)) (map fst gathered)
              \/ In (joinpath source_dir (stem ++ DOT :: ext))
                    (map fst failures)))
    /\ (~ In (DOT :: map ascii_lower ext) recognized ->
          In (joinpath source_dir (stem ++ DOT :: ext)) unsupported).
Proof.
  intros Hp Hs He Hd Ha. rewrite gather_sources_eq. cbv zeta.
  do 3 eexists. split; [reflexivity|].
  apply files_of_sorted in Hp. destruct Hp as [Hp Hdir].
  set (p := joinpath source_dir (stem ++ DOT :: ext)) in *.
  assert (K : lower unicode_lower (suffix p) = DOT :: map ascii_lower ext).
  { unfold p. rewrite (suffix_of_name _ _ _ Hs He Hd). unfold lower.
    cbn [forallb]. rewrite Ha. reflexivity. }
  rewrite in_unsupported, in_gathered_paths, in_failed_paths.
  unfold outcome_of. rewrite Hdir, K. split.
  - intros R. apply (proj2 (READERS_keys fs site _)) in R.
    destruct R as [reader ->]. split.
    + intros [_ H]. destruct (reader p); discriminate.
    + destruct (reader p); [left|right]; eauto.
  - intros R. destruct (dict_get _ _) as [reader|] eqn:E; auto.
    exfalso. apply R. apply (proj1 (READERS_keys fs site _)). eauto.
Qed.

Lemma last_extension_decides_sample :
  In (joinpath [lit "d"] (lit "a.tar" ++ DOT :: lit "TXT"))
     (files_of sample_fs_names [lit "d"])
  /\ In (DOT :: map ascii_lower (lit "TXT")) recognized
  /\ exists gathered unsupported failures,
       gather_sources sample_lower sample_fs_names sample_site [lit "d"]
       = Ok (gathered, unsupported, failures)
       /\ (In (DOT :: map ascii_lower (lit "TXT")) recognized ->
             ~ In (joinpath [lit "d"] (lit "a.tar" ++ DOT :: lit "TXT"))
                  unsupported
             /\ (In (joinpath [lit "d"] (lit "a.tar" ++ DOT :: lit "TXT"))
                    (map fst gathered)
                 \/ In (joinpath [lit "d"] (lit "a.tar" ++ DOT :: lit "TXT"))
                       (map fst failures)))
       /\ (~ In (DOT :: map ascii_lower (lit "TXT")) recognized ->
             In (joinpath [lit "d"] (lit "a.tar" ++ DOT :: lit "TXT"))
                unsupported).
Proof.
  assert (I : In (joinpath [lit "d"] (lit "a.tar" ++ DOT :: lit "TXT"))
                 (files_of sample_fs_names [lit "d"]))
    by (do 3 right; left; reflexivity).
  split; [exact I|]. split; [do 3 right; left; reflexivity|].
  exact (last_extension_decides sample_lower sample_fs_names sample_site
           [lit "d"] (lit "a.tar") (lit "TXT") I
           ltac:(discriminate) ltac:(discriminate) eq_refl eq_refl).
Defined.

(** ** What the extractors return is already trimmed *)

Lemma no_leading_space_app (a b : str) :
  a <> [] -> no_leading_space (a ++ b) = no_leading_space a.
Proof. destruct a; [congruence|reflexivity]. Qed.

Lemma no_trailing_space_app (a b : str) :
  b <> [] -> no_trailing_space (a ++ b) = no_trailing_space b.
Proof.
  intros H. unfold no_trailing_space. rewrite rev_app_distr.
  apply no_leading_space_app. intros E. apply H.
  apply (f_equal (@rev char)) in E. now rewrite rev_involutive in E.
Qed.

Lemma visible_ends_iff (s : str) :
  visible_ends s = true
  <-> s <> [] /\ no_leading_space s = true /\ no_trailing_space s = true.
Proof.
  unfold visible_ends, truthy. rewrite !andb_true_iff, negb_true_iff.
  destruct s; simpl; intuition congruence.
Qed.

Lemma visible_ends_app (a b c : str) :
  visible_ends a = true -> visible_ends c = true ->
  visible_ends (a ++ b ++ c) = true.
Proof.
  rewrite !visible_ends_iff. intros (Ha & La & _) (Hc & _ & Tc).
  split; [destruct a; [congruence|discriminate]|]. split.
  - now rewrite no_leading_space_app.
  - rewrite app_assoc, no_trailing_space_app; auto.
Qed.

Lemma visible_ends_strip (s : str) :
  truthy (strip s) = true -> visible_ends (strip s) = true.
Proof.
  intros H. unfold visible_ends.
  now rewrite H, strip_no_leading, strip_no_trailing.
Qed.

Lemma strip_unchanged (s : str) :
  no_leading_space s = true -> no_trailing_space s = true -> strip s = s.
Proof.
  intros L T. unfold strip. rewrite (lstrip_fixed _ L). now apply rstrip_fixed.
Qed.

Lemma join_visible (sep x : str) (l : list str) :
  Forall (fun s => visible_ends s = true) (x :: l) ->
  visible_ends (join sep (x :: l)) = true.
Proof.
  revert x. induction l as [|y l IH]; intros x H.
  - now inversion H.
  - rewrite join_cons by discriminate. inversion H; subst.
    apply visible_ends_app; auto.
Qed.

(** Joining pieces that are non-empty and trimmed gives a trimmed text. *)
Lemma join_stripped (sep : str) (l : list str) :
  Forall (fun s => visible_ends s = true) l ->
  strip (join sep l) = join sep l.
Proof.
  destruct l as [|x l]; [reflexivity|]. intros H.
  apply join_visible with (sep := sep) in H.
  apply visible_ends_iff in H. destruct H as (_ & L & T).
  now apply strip_unchanged.
Qed.

Lemma nonempty_stripped_visible (texts : list str) :
  Forall (fun s => visible_ends s = true) (nonempty_stripped texts).
Proof.
  unfold nonempty_stripped. apply Forall_forall. intros s H.
  apply filter_In in H. destruct H as [H T].
  apply in_map_iff in H. destruct H as (x & <- & _).
  now apply visible_ends_strip.
Qed.

Lemma docx_lines_visible (document : Docx.Document) :
  Forall (fun s => visible_ends s = true) (docx_lines document).
Proof.
  unfold docx_lines. apply Forall_app. split.
  - apply nonempty_stripped_visible.
  - apply Forall_flat_map, Forall_forall. intros table _.
    apply Forall_flat_map, Forall_forall. intros row _.
    unfold docx_row_line.
    pose proof (nonempty_stripped_visible (Docx.cells row)) as V.
    destruct (nonempty_stripped (Docx.cells row)) as [|c cs]; constructor;
      [|constructor].
    now apply join_visible.
Qed.

Lemma shape_fragments_visible (slide : Pptx.Slide) :
  Forall (fun s => visible_ends s = true) (filter truthy (shape_texts slide)).
Proof.
  apply Forall_forall. intros s H. apply filter_In in H.
  destruct H as [H T]. unfold shape_texts in H. apply in_flat_map in H.
  destruct H as ([|t] & _ & H); [contradiction|].
  destruct H as [<-|[]]. now apply visible_ends_strip.
Qed.

Lemma pptx_blocks_visible (presentation : Pptx.Presentation) :
  Forall (fun s => visible_ends s = true) (pptx_blocks presentation).
Proof.
  unfold pptx_blocks. apply Forall_flat_map, Forall_forall.
  intros [index slide] _. unfold slide_block.
  pose proof (shape_fragments_visible slide) as V.
  destruct (filter truthy (shape_texts slide)) as [|x l]; constructor;
    [|constructor].
  apply join_visible with (sep := [NL]) in V.
  apply visible_ends_iff in V. destruct V as (N & _ & T).
  apply visible_ends_iff. split; [discriminate|]. split; [reflexivity|].
  rewrite app_assoc, no_trailing_space_app; auto.
Qed.

Lemma pdf_pages_visible (l : list Pdf.Page) :
  forall acc pages,
    Forall (fun s => visible_ends s = true) acc ->
    fold_left (fun acc page =>
                 pages <- acc ;;
                 extracted <- lift (Pdf.extract_text page) ;;
                 let text := or_empty extracted in
                 let text := strip text in
                 Ok (if truthy text then pages ++ [text] else pages))
              l (Ok acc)
    = Ok pages ->
    Forall (fun s => visible_ends s = true) pages.
Proof.
  induction l as [|page l IH]; intros acc pages Hacc H.
  - injection H as <-. exact Hacc.
  - cbn [fold_left bind] in H.
    destruct (Pdf.extract_text page) as [x|detail]; cbn [lift bind] in H.
    + apply IH in H; auto.
      destruct (truthy (strip (or_empty x))) eqn:T; auto.
      apply Forall_app. split; auto. constructor; [|constructor].
      now apply visible_ends_strip.
    + now rewrite pdf_pages_raise in H.
Qed.

Section Trimmed.

Variable fs : filesystem.
Variable site : site_packages.

Lemma read_docx_trimmed p raw :
  read_docx fs site p = Ok raw -> strip raw = raw.
Proof.
  unfold read_docx. destruct (docx_Document site) as [cls|]; [|discriminate].
  destruct (construct fs cls p) as [document|]; [|discriminate].
  cbn [bind]. rewrite docx_loops. intros [= <-].
  apply join_stripped, docx_lines_visible.
Qed.

Lemma read_pptx_trimmed p raw :
  read_pptx fs site p = Ok raw -> strip raw = raw.
Proof.
  unfold read_pptx. destruct (pptx_Presentation site) as [cls|];
    [|discriminate].
  destruct (construct fs cls p) as [presentation|]; [|discriminate].
  cbn [bind]. rewrite pptx_loops. intros [= <-].
  apply join_stripped, pptx_blocks_visible.
Qed.

Lemma read_pdf_trimmed p raw :
  read_pdf fs site p = Ok raw -> strip raw = raw.
Proof.
  unfold read_pdf.
  destruct (match pypdf_PdfReader site with
            | Some PdfReader => Ok PdfReader
            | None => _
            end) as [cls|]; [|discriminate].
  cbn [bind]. destruct (construct fs cls p) as [reader|]; [|discriminate].
  cbn [bind].
  destruct (fold_left _ (Pdf.pages reader) (Ok [])) as [pages|] eqn:E;
    [|discriminate].
  cbn [bind]. intros [= <-].
  apply join_stripped. eapply pdf_pages_visible; [|exact E]. constructor.
Qed.

Lemma read_plain_text_trimmed p raw :
  read_plain_text fs p = Ok raw -> strip raw = raw.
Proof.
  unfold read_plain_text. destruct (read_text fs ignore p) as [t|];
    [|discriminate].
  cbn [fmap bind]. intros [= <-].
  apply strip_unchanged; [apply strip_no_leading|apply strip_no_trailing].
Qed.

Lemma readers_trimmed key reader p raw :
  dict_get (READERS fs site) key = Some reader ->
  reader p = Ok raw -> strip raw = raw.
Proof.
  unfold READERS. cbn [dict_get]. intros H.
  repeat match type of H with
         | (if ?b then _ else _) = _ => destruct b
         end;
    inversion H; subst; intros Q;
    first [ exact (read_docx_trimmed _ _ Q)
          | exact (read_pdf_trimmed _ _ Q)
          | exact (read_pptx_trimmed _ _ Q)
          | exact (read_plain_text_trimmed _ _ Q) ].
Qed.

End Trimmed.

(** X13.  Every extractor returns text that is already trimmed, so the
    gatherer's own trimming changes nothing: the text of a gathered
    result is exactly what the reader of the file's extension returned. *)
Theorem gathered_text_is_extractor_output
    (unicode_lower : str -> str) (fs : filesystem) (site : site_packages)
    (source_dir : Path) :
  exists gathered unsupported failures,
    gather_sources unicode_lower fs site source_dir
    = Ok (gathered, unsupported, failures)
    /\ forall p text,
         In (p, text) gathered ->
         exists reader,
           dict_get (READERS fs site) (lower unicode_lower (suffix p))
           = Some reader
           /\ reader p = Ok text.
Proof.
  rewrite gather_sources_eq. cbv zeta. do 3 eexists.
  split; [reflexivity|].
  intros p text H. apply in_gathered in H. destruct H as [_ E].
  unfold outcome_of in E.
  destruct (is_dir fs p); [discriminate|].
  destruct (dict_get _ _) as [reader|] eqn:R; [|discriminate].
  destruct (reader p) as [raw|] eqn:Q; [|discriminate].
  injection E as <-. exists reader. split; [reflexivity|].
  now rewrite (readers_trimmed _ _ _ _ _ _ R Q).
Qed.

(** ** Loading a missing or blank brief *)



(** ** The driver *)

Lemma path_eqb_eq (p q : Path) : path_eqb p q = true <-> p = q.
Proof.
  revert q; induction p as [|x p IH]; intros [|y q]; cbn [path_eqb];
    try (split; congruence).
  rewrite andb_true_iff, str_eqb_eq, IH. split.
  - intros [-> ->]; reflexivity.
  - intros E; inversion E; auto.
Qed.

Lemma path_eqb_refl (p : Path) : path_eqb p p = true.
Proof. now apply path_eqb_eq. Qed.



(** Making a directory that is there changes nothing. *)
Lemma mkdir_existing (fs : filesystem) (p : Path) (entries : list str) :
  fs p = Some (Dir entries) -> mkdir fs p = Ok fs.
Proof.
  intros H. unfold mkdir.
  destruct (length p); cbn [mkdir_parents]; unfold os_mkdir, is_dir;
    now rewrite H.
Qed.

Lemma parent_length (p : Path) :
  path_eqb (parent p) p = false -> S (length (parent p)) = length p.
Proof.
  destruct p as [|a [|b p]].
  - discriminate.
  - cbn [parent]. destruct (is_anchor a); [|reflexivity].
    now rewrite path_eqb_refl.
  - intros _. change (parent (a :: b :: p)) with (removelast (a :: b :: p)).
    assert (L : forall (l : Path), l <> [] ->
                  S (length (removelast l)) = length l).
    { induction l as [|x [|y l] IH]; intros N; [congruence|reflexivity|].
      change (removelast (x :: y :: l)) with (x :: removelast (y :: l)).
      cbn [length]. f_equal. apply IH. discriminate. }
    apply L. discriminate.
Qed.

(** The climb of [mkdir] ends within the number of parts of the path: more
    levels change nothing. *)
Lemma mkdir_parents_levels (k1 : nat) :
  forall k2 fs p,
    (length p <= k1)%nat -> (length p <= k2)%nat ->
    mkdir_parents k1 fs p = mkdir_parents k2 fs p.
Proof.
  induction k1 as [|k1 IH]; intros k2 fs p L1 L2.
  - destruct p; [|simpl in L1; lia].
    destruct k2; cbn [mkdir_parents]; [reflexivity|].
    destruct (os_mkdir fs []); [reflexivity|].
    destruct (is_FileNotFoundError e); reflexivity.
  - destruct k2 as [|k2].
    + destruct p; [|simpl in L2; lia]. cbn [mkdir_parents].
      destruct (os_mkdir fs []); [reflexivity|].
      destruct (is_FileNotFoundError e); reflexivity.
    + cbn [mkdir_parents]. destruct (os_mkdir fs p); [reflexivity|].
      destruct (is_FileNotFoundError e); [|reflexivity].
      destruct (path_eqb (parent p) p) eqn:E; [reflexivity|].
      apply parent_length in E.
      rewrite (IH k2 fs (parent p)); [reflexivity|lia|lia].
Qed.

Lemma write_text_directory (fs : filesystem) (p : Path) (text : str)
    (entries : list str) :
  fs p = Some (Dir entries) -> write_text fs p text = Raise IsADirectoryError.
Proof. intros H. unfold write_text. now rewrite H. Qed.


Section Printing.

Variable stdout_error : str -> option exn.

Lemma for_each_map {A} (f : A -> str) (items : list A) :
  forall printed,
    for_each (fun printed item => print stdout_error printed (f item))
             items printed
    = for_each (print stdout_error) (map f items) printed.
Proof.
  induction items as [|x items IH]; intros printed; [reflexivity|].
  cbn [for_each map]. destruct (print _ _ _); cbn [bind]; auto.
Qed.

Lemma for_each_ext {A} (body body' : list str -> A -> result (list str))
    (items : list A) :
  (forall printed item, body printed item = body' printed item) ->
  forall printed, for_each body items printed = for_each body' items printed.
Proof.
  intros E. induction items as [|x items IH]; intros printed; [reflexivity|].
  cbn [for_each]. rewrite E. destruct (body' printed x); cbn [bind]; auto.
Qed.

Lemma for_each_app {A} (body : list str -> A -> result (list str))
    (a b : list A) :
  forall printed,
    for_each body (a ++ b) printed
    = bind (for_each body a printed) (for_each body b).
Proof.
  induction a as [|x a IH]; intros printed; [reflexivity|].
  cbn [for_each app]. destruct (body printed x); cbn [bind]; auto.
Qed.

(** Lines the output accepts are printed in order. *)
Lemma print_accepted (lines : list str) :
  (forall line, In line lines -> stdout_error line = None) ->
  forall printed,
    for_each (print stdout_error) lines printed = Ok (printed ++ lines).
Proof.
  induction lines as [|l lines IH]; intros H printed.
  - now rewrite app_nil_r.
  - cbn [for_each]. unfold print at 1. rewrite (H l) by now left.
    cbn [bind]. rewrite IH by (intros; apply H; now right).
    now rewrite <- app_assoc.
Qed.

(** The first line the output rejects ends the printing with its
    exception. *)
Lemma print_rejected (before after : list str) (line : str) (e : exn) :
  (forall l, In l before -> stdout_error l = None) ->
  stdout_error line = Some e ->
  forall printed,
    for_each (print stdout_error) (before ++ line :: after) printed = Raise e.
Proof.
  intros HB HL printed. rewrite for_each_app, (print_accepted _ HB).
  cbn [bind for_each]. unfold print. now rewrite HL.
Qed.

End Printing.

Section Run.

Variable unicode_lower : str -> str.
Variable fs : filesystem.
Variable site : site_packages.
Variable resolve : Path -> Path.
Variable exn_str : exn -> str.
Variable stdout_error : str -> option exn.
Variable now : datetime.
Variable args : arguments.

Local Abbreviation the_run :=
  (main unicode_lower fs site resolve exn_str stdout_error now args).

(** Once the source directory is there, the brief has loaded and the
    files are gathered, the run is: make the directory of the output,
    write the bundle, print the summary. *)
Lemma main_steps (request_text : str) (gathered : list (Path * str))
    (unsupported : list Path) (failures : list (Path * exn)) :
  exists_ fs (source_dir args) = true ->
  load_site_brief fs (request_file args) = Ok request_text ->
  gather_sources unicode_lower fs site (source_dir args)
  = Ok (gathered, unsupported, failures) ->
  the_run
  = (fs1 <- mkdir fs (parent (output args)) ;;
     fs2 <- write_text fs1 (output args)
              (build_bundle now request_text gathered) ;;
     printed <- for_each (print stdout_error)
                  (summary resolve exn_str (output args) unsupported
                     failures) [] ;;
     Ok {| files := fs2; stdout := printed |}).
Proof.
  intros HS HL HG. unfold main. cbv zeta. rewrite HS, HL, HG.
  cbn [negb bind].
  destruct (mkdir fs (parent (output args))) as [fs1|]; [|reflexivity].
  cbn [bind].
  destruct (write_text fs1 _ _) as [fs2|]; [|reflexivity]. cbn [bind].
  unfold summary.
  rewrite (for_each_app (print stdout_error)). cbn [for_each bind].
  destruct (print stdout_error [] _) as [printed|]; [|reflexivity].
  cbn [bind]. rewrite (for_each_app (print stdout_error)).
  assert (U : match unsupported with
              | [] => Ok printed
              | _ :: _ =>
                printed0 <-
                  print stdout_error printed
                    ([0x26A0; 0xFE0F]
                     ++ lit "  Unsupported files (skipped):") ;;
                for_each (fun printed1 path =>
                            print stdout_error printed1 (bullet (name path)))
                         unsupported printed0
              end
              = for_each (print stdout_error)
                  match unsupported with
                  | [] => []
                  | _ :: _ =>
                    ([0x26A0; 0xFE0F]
                     ++ lit "  Unsupported files (skipped):")
                    :: map (fun path => bullet (name path)) unsupported
                  end printed).
  { destruct unsupported as [|u us]; [reflexivity|].
    set (l := u :: us). cbn [for_each]. destruct (print stdout_error printed _); [|reflexivity].
    cbn [bind]. apply (for_each_map stdout_error). }
  rewrite U. destruct (for_each (print stdout_error) _ printed) as [printed'|];
    [|reflexivity].
  cbn [bind].
  destruct failures as [|f fl]; [reflexivity|].
  set (l := f :: fl). cbn [for_each]. destruct (print stdout_error printed' _); [|reflexivity].
  cbn [bind].
  rewrite <- (for_each_map stdout_error
                (fun '(path, error) =>
                   bullet (name path ++ lit ": " ++ exn_str error))).
  f_equal. apply for_each_ext. now intros out [path error].
Qed.

Local Abbreviation the_summary unsupported failures :=
  (summary resolve exn_str (output args) unsupported failures).

Lemma unsupported_in_summary (unsupported : list Path)
    (failures : list (Path * exn)) (p : Path) :
  In p unsupported ->
  In (bullet (name p)) (the_summary unsupported failures).
Proof.
  intros H. unfold summary. apply in_or_app. right. apply in_or_app. left.
  destruct unsupported as [|u us]; [destruct H|].
  right. apply (in_map (fun path => bullet (name path))), H.
Qed.

Lemma failure_in_summary (unsupported : list Path)
    (failures : list (Path * exn)) (p : Path) (e : exn) :
  In (p, e) failures ->
  In (bullet (name p ++ lit ": " ++ exn_str e))
     (the_summary unsupported failures).
Proof.
  intros H. unfold summary. apply in_or_app. right. apply in_or_app. right.
  destruct failures as [|f fl]; [destruct H|].
  right.
  apply (in_map (fun '(path, error) =>
                   bullet (name path ++ lit ": " ++ exn_str error))
                _ (p, e)), H.
Qed.

(** X7.  How a run ends.  Without the source directory [main] stops with
    [SystemExit] and its message, before the brief is looked at.  With
    it, a brief that fails to load ends the run with that exception.
    When the brief loads, the files are gathered whatever the extractors
    do, and the run then makes the directory of the output, writes the
    bundle built from the brief and the gathered results, and prints the
    summary; an exception of one of these three steps ends the run, as
    when the output path is a directory, and no other exception does.
    When the three steps succeed the run completes, leaving the file
    system the write produced and the summary on the output.  Every file
    of the source directory is among the gathered results or named in a
    line of the summary, as unsupported or as failed with its message. *)
Theorem main_outcome :
  (exists_ fs (source_dir args) = false ->
     the_run
     = Raise (SystemExit (lit "Source directory not found: "
                          ++ path_str (source_dir args))))
  /\ (exists_ fs (source_dir args) = true ->
        (forall e,
           load_site_brief fs (request_file args) = Raise e ->
           the_run = Raise e)
        /\ (forall request_text,
              load_site_brief fs (request_file args) = Ok request_text ->
              exists gathered unsupported failures,
                gather_sources unicode_lower fs site (source_dir args)
                = Ok (gathered, unsupported, failures)
                /\ (forall e,
                      mkdir fs (parent (output args)) = Raise e ->
                      the_run = Raise e)
                /\ (forall fs1 e,
                      mkdir fs (parent (output args)) = Ok fs1 ->
                      write_text fs1 (output args)
                        (build_bundle now request_text gathered)
                      = Raise e ->
                      the_run = Raise e)
                /\ (forall entries contents,
                      fs (parent (output args)) = Some (Dir entries) ->
                      fs (output args) = Some (Dir contents) ->
                      the_run = Raise IsADirectoryError)
                /\ (forall fs1 fs2,
                      mkdir fs (parent (output args)) = Ok fs1 ->
                      write_text fs1 (output args)
                        (build_bundle now request_text gathered)
                      = Ok fs2 ->
                      (forall before line after e,
                         the_summary unsupported failures
                         = before ++ line :: after ->
                         (forall l, In l before -> stdout_error l = None) ->
                         stdout_error line = Some e ->
                         the_run = Raise e)
                      /\ ((forall line,
                             In line (the_summary unsupported failures) ->
                             stdout_error line = None) ->
                          the_run
                          = Ok {| files := fs2;
                                  stdout :=
                                    the_summary unsupported failures |}))
                /\ (forall p,
                      In p (files_of fs (source_dir args)) ->
                      In p (map fst gathered)
                      \/ In (bullet (name p))
                            (the_summary unsupported failures)
                      \/ exists e,
                           In (p, e) failures
                           /\ In (bullet (name p ++ lit ": " ++ exn_str e))
                                 (the_summary unsupported failures)))).
Proof.
  split; [|intros HS; split].
  - intros H. unfold main. now rewrite H.
  - intros e L. unfold main. rewrite HS, L. reflexivity.
  - intros request_text L.
    pose proof (gather_sources_eq fs site unicode_lower (source_dir args))
      as G. cbv zeta in G.
    do 3 eexists. split; [exact G|].
    pose proof (main_steps _ _ _ _ HS L G) as M.
    split; [|split; [|split; [|split]]].
    + intros e E. rewrite M, E. reflexivity.
    + intros fs1 e E W. rewrite M, E. cbn [bind]. rewrite W. reflexivity.
    + intros entries contents HP HO.
      rewrite M, (mkdir_existing _ _ _ HP). cbn [bind].
      now rewrite (write_text_directory _ _ _ _ HO).
    + intros fs1 fs2 E W. rewrite M, E. cbn [bind]. rewrite W. cbn [bind].
      split.
      * intros before line after e -> HB HL.
        now rewrite (print_rejected _ _ _ _ _ HB HL).
      * intros HA. now rewrite (print_accepted _ _ HA).
    + intros p Hp. apply files_of_sorted in Hp. destruct Hp as [Hp Hd].
      destruct (buckets_exactly_one unicode_lower fs site _ _ Hp Hd)
        as [[I _]|[[_ [I _]]|[_ [_ I]]]].
      * now left.
      * right; left. now apply unsupported_in_summary.
      * right; right. apply in_map_iff in I. destruct I as ([q e] & <- & I).
        exists e. split; [exact I|]. now apply failure_in_summary.
Qed.


End Run.


(** The sample run prints the three parts of the summary. *)
Example main_sample_summary :
  fmap stdout
    (main sample_lower sample_fs_build sample_site sample_resolve
       sample_exn_str utf8_stdout sample_now sample_args)
  = Ok [ [0x2705]
         ++ lit " Context bundle written to /work/build/context-bundle.md";
         [0x26A0; 0xFE0F] ++ lit "  Unsupported files (skipped):";
         bullet (lit "skip.csv");
         [0x274C] ++ lit " Files that could not be processed:";
         bullet (lit "broken.docx: Package not found");
         bullet (lit "paper.pdf: " ++ pdf_required) ].
Proof. vm_compute. reflexivity. Qed.

(** With the source directory as the output path the run ends with
    [IsADirectoryError], whatever was gathered. *)
Example main_output_is_a_directory :
  main sample_lower sample_fs_build sample_site sample_resolve
    sample_exn_str utf8_stdout sample_now
    {| source_dir := [lit "source"];
       request_file := [lit "request"; lit "missing.yaml"];
       output := [lit "source"] |}
  = Raise IsADirectoryError.
Proof. vm_compute. reflexivity. Qed.

(** A run with the default arguments where there is no [build] directory
    yet: it is made, and the bundle is its one entry. *)
Example main_default_arguments :
  match main sample_lower sample_fs sample_site sample_resolve
          sample_exn_str utf8_stdout sample_now
          {| source_dir := [lit "source"];
             request_file := [lit "request"; lit "site-brief.yaml"];
             output := [lit "build"; lit "context-bundle.md"] |}
  with
  | Ok report =>
    [files report []; files report [lit "build"];
     files report [lit "request"]]
  | Raise _ => []
  end
  = [Some (Dir [lit "source"; lit "request"; lit "build"]);
     Some (Dir [lit "context-bundle.md"]);
     sample_fs [lit "request"]].
Proof. vm_compute. reflexivity. Qed.

(** An output path under directories that are not there yet: the run
    makes them, outermost first, and lists each in the one above. *)
Example main_makes_the_output_directory :
  match main sample_lower sample_fs_build sample_site sample_resolve
          sample_exn_str utf8_stdout sample_now
          {| source_dir := [lit "source"];
             request_file := [lit "request"; lit "missing.yaml"];
             output := [lit "out"; lit "deep"; lit "bundle.md"] |}
  with
  | Ok report =>
    [files report []; files report [lit "out"];
     files report [lit "out"; lit "deep"]]
  | Raise _ => []
  end
  = [Some (Dir [lit "source"; lit "request"; lit "build"; lit "out"]);
     Some (Dir [lit "deep"]);
     Some (Dir [lit "bundle.md"])].
Proof. vm_compute. reflexivity. Qed.

(** The message of [SystemExit] holds an absolute path as [str] gives
    it. *)
Example main_without_absolute_source_dir :
  main sample_lower sample_fs sample_site sample_resolve sample_exn_str
    utf8_stdout sample_now
    {| source_dir := [lit "/"; lit "nonexistent"; lit "abs"];
       request_file := [lit "request"; lit "site-brief.yaml"];
       output := [lit "build"; lit "context-bundle.md"] |}
  = Raise (SystemExit (lit "Source directory not found: /nonexistent/abs")).
Proof. vm_compute. reflexivity. Qed.

(** ** A brief with a byte order mark *)

(** X15.  The brief loader decodes with the plain UTF-8 codec, which does
    not skip a byte order mark: a brief file that starts with the bytes
    [EF BB BF] is returned with U+FEFF as its first character, followed by
    the rest of the text without its trailing whitespace. *)
Theorem load_site_brief_keeps_bom
    (fs : filesystem) (path : Path) (data : bytes) (text : str) :
  fs path = Some (File (xef :: xbb :: xbf :: data)) ->
  utf8_encode text = Some data ->
  load_site_brief fs path
  = Ok (0xFEFF :: rstrip (universal_newlines text)).
Proof.
  intros HF HE.
  assert (E : utf8_encode (0xFEFF :: text)
              = Some (xef :: xbb :: xbf :: data)).
  { cbn [utf8_encode]. rewrite HE. reflexivity. }
  unfold load_site_brief, exists_.
  rewrite (read_text_valid _ _ _ _ _ HF E), HF. cbn [negb fmap bind].
  change (universal_newlines (0xFEFF :: text))
    with (0xFEFF :: universal_newlines text).
  now rewrite strip_head.
Qed.

Lemma load_site_brief_keeps_bom_sample :
  sample_fs_bom [lit "brief.yaml"]
  = Some (File (xef :: xbb :: xbf :: [x68; x69; x0a]))
  /\ utf8_encode (lit "hi" ++ [NL]) = Some [x68; x69; x0a]
  /\ load_site_brief sample_fs_bom [lit "brief.yaml"]
     = Ok (0xFEFF :: lit "hi").
Proof.
  split; [reflexivity|]. split; [reflexivity|].
  exact (load_site_brief_keeps_bom sample_fs_bom [lit "brief.yaml"]
           [x68; x69; x0a] (lit "hi" ++ [NL]) eq_refl eq_refl).
Defined.
